(** * Medical-Document-Summarization: a shallow embedding of [app.py]

    The script is an orchestration of three stages: intake of the uploaded
    file ([upload_document]), OCR extraction and chunking
    ([process_document]) and per-chunk summarization ([generate_summary]).
    Each Python function is embedded below under its own name.  The remote
    services (Textract, Bedrock), [uuid.uuid4] and [st.error] are effects:
    services are oracles, [st.error] appends to an event log, and the
    files under [./uploaded_files] are a finite map from paths to nodes. *)

From Stdlib Require Import String Ascii ZArith Lia.
From Stdlib.Strings Require Byte.
From stdpp Require Import base list strings gmap.

Local Open Scope nat_scope.
Local Set Warnings "-register-all".

(** stdpp blocks the unfolding of string concatenation; the proofs below
    compute with it. *)
Local Arguments String.append !_ _ : simpl nomatch.

(** ** Python values and exceptions *)

(** The values [json.loads] can return. *)
Inductive pyval :=
| PyNone
| PyBool (b : bool)
| PyNum (n : Z)
| PyStr (s : string)
| PyList (l : list pyval)
| PyDict (kvs : list (string * pyval)).

(** The exceptions the script can see.  [ClientError] is botocore's; the
    others are the builtin ones raised by subscripting and method lookup;
    [OtherError] stands for any further subclass of [Exception]. *)
Inductive exn :=
| ClientError (message : string)
| KeyError (key : string)
| IndexError
| TypeError
| AttributeError
| OtherError (message : string).

(** A computation that may raise. *)
Definition result (A : Type) : Type := exn + A.

Definition raise {A} (e : exn) : result A := inl e.
Definition ret {A} (a : A) : result A := inr a.

Definition bind {A B} (r : result A) (k : A -> result B) : result B :=
  match r with
  | inl e => inl e
  | inr a => k a
  end.

Notation "'do' x <- r ; k" := (bind r (fun x => k))
  (at level 10, x name, r at level 100, k at level 200).

(** Lookup in a dictionary kept as its list of items. *)
Fixpoint dict_lookup (k : string) (kvs : list (string * pyval)) : option pyval :=
  match kvs with
  | [] => None
  | (k', v) :: rest => if String.eqb k k' then Some v else dict_lookup k rest
  end.

(** [v.get(k, d)]: only dictionaries have the method. *)
Definition py_get (v : pyval) (k : string) (d : pyval) : result pyval :=
  match v with
  | PyDict kvs => ret (default d (dict_lookup k kvs))
  | _ => raise AttributeError
  end.

(** [v[i]] for an integer index [i >= 0]. *)
Definition py_index (v : pyval) (i : nat) : result pyval :=
  match v with
  | PyList l =>
      match l !! i with
      | Some x => ret x
      | None => raise IndexError
      end
  | PyStr s =>
      match String.get i s with
      | Some c => ret (PyStr (String c EmptyString))
      | None => raise IndexError
      end
  | PyDict _ => raise (KeyError "0")
  | _ => raise TypeError
  end.

(** [v[k]] for a string key [k]. *)
Definition py_item (v : pyval) (k : string) : result pyval :=
  match v with
  | PyDict kvs =>
      match dict_lookup k kvs with
      | Some x => ret x
      | None => raise (KeyError k)
      end
  | _ => raise TypeError
  end.

(** [sep.join(items)]: every item has to be a [str]. *)
Fixpoint py_strs (items : list pyval) : result (list string) :=
  match items with
  | [] => ret []
  | PyStr s :: rest => do ss <- py_strs rest; ret (s :: ss)
  | _ :: _ => raise TypeError
  end.

Definition py_join (sep : string) (items : list pyval) : result string :=
  do ss <- py_strs items; ret (String.concat sep ss).

(** ** Events *)

(** What a run leaves behind: the [st.error] boxes shown to the user (the
    fixed text and, where the message formats an exception, its cause) and
    the calls of the text splitter. *)
Inductive event :=
| StError (text : string) (cause : option exn)
| SplitText (text : string).

(** * The summarizer: [generate_summary] *)

Section Summarizer.

(** The state of the Bedrock service. *)
Context {World : Type}.

(** [json.dumps] and the value of the environment variable
    [BEDROCK_MODEL]. *)
Variable json_dumps : pyval -> string.
Variable BEDROCK_MODEL : option string.

(** Lines 164-166: [bedrock.invoke_model(body, modelId)] followed by
    [json.loads(response.get("body").read())].  It raises or yields the
    parsed response body, and moves the service to a new state. *)
Variable invoke_model : string -> option string -> World -> result pyval * World.

Definition message (role : string) (content : pyval) : pyval :=
  PyDict [("role", PyStr role); ("content", content)].

Definition messages (chunk : string) : pyval :=
  PyList
    [ message "user" (PyStr "I have a medical document that I'd like summarized. Output should have short description with the Patient's Complaint, History and Observations.");
      message "assistant" (PyStr "Sure, I can help with that. Please provide the text of the medical document.");
      message "user" (PyStr chunk) ].

Definition request_body (chunk : string) : string :=
  json_dumps
    (PyDict [ ("max_tokens", PyNum 1000%Z);
              ("messages", messages chunk);
              ("anthropic_version", PyStr "bedrock-2023-05-31") ]).

(** Lines 167-168: the value appended to [summaries]. *)
Definition first_text (response_body : pyval) : result pyval :=
  do output <- py_get response_body "content" (PyStr "No summary generated");
  do part <- py_index output 0;
  py_item part "text".

(** The body of the inner [try], lines 164-168. *)
Definition summarize_chunk (chunk : string) (w : World) : result pyval * World :=
  let '(r, w') := invoke_model (request_body chunk) BEDROCK_MODEL w in
  (do response_body <- r; first_text response_body, w').

(** The two inner handlers, lines 169-175. *)
Definition inner_handler (e : exn) : event :=
  match e with
  | ClientError msg => StError ("Amazon Bedrock error: " +:+ msg) None
  | _ => StError "Error invoking the Claude model: " (Some e)
  end.

(** The [for] loop, lines 148-175: [None] is the early [return None]. *)
Fixpoint for_chunks (documents : list string) (summaries : list pyval)
    (w : World) (log : list event) : option (list pyval) * World * list event :=
  match documents with
  | [] => (Some summaries, w, log)
  | chunk :: rest =>
      match summarize_chunk chunk w with
      | (inr text, w') => for_chunks rest (summaries ++ [text]) w' log
      | (inl e, w') => (None, w', log ++ [inner_handler e])
      end
  end.

Definition generate_summary (documents : list string) (w : World)
    : option string * World * list event :=
  match for_chunks documents [] w [] with
  | (Some summaries, w', log) =>
      match py_join " " summaries with
      | inr summary => (Some summary, w', log)
      | inl e => (None, w', log ++ [StError "Error generating summary: " (Some e)])
      end
  | (None, w', log) => (None, w', log)
  end.

(** The value [generate_summary] returns. *)
Definition summary_of (documents : list string) (w : World) : option string :=
  fst (fst (generate_summary documents w)).

(** [answered documents w responses w']: starting from [w], the calls
    for [documents] are made in order, each returns a response body (the
    i-th one the i-th of [responses]), and the service ends in [w']. *)
Inductive answered : list string -> World -> list pyval -> World -> Prop :=
| answered_nil w : answered [] w [] w
| answered_cons chunk rest w response w' responses w'' :
    invoke_model (request_body chunk) BEDROCK_MODEL w = (inr response, w') ->
    answered rest w' responses w'' ->
    answered (chunk :: rest) w (response :: responses) w''.

(** The i-th response has a first content part whose text is the i-th
    of [texts]. *)
Definition texts_of (responses texts : list pyval) : Prop :=
  Forall2 (fun response text => first_text response = inr text) responses texts.

End Summarizer.

(** * Extraction and chunking: [process_document] *)

(** A block of a Textract response.  Only [LINE] (and [WORD]) blocks carry
    a ["Text"] entry; [Text] is [None] where the key is missing. *)
Record Block := { BlockType : string; Text : option string }.

(** The newline character. *)
Definition nl : string := String "010"%char EmptyString.

(** Truth value of a [str] or [None]. *)
Definition truthy (o : option string) : bool :=
  match o with
  | Some s => negb (String.eqb s "")
  | None => false
  end.

(** [x in xs] on strings. *)
Definition str_in (x : string) (xs : list string) : bool :=
  existsb (String.eqb x) xs.

(** The separators of line 127. *)
Definition separators : list string :=
  [nl +:+ nl; nl; "."; "!"; "?"; ","; " "; ""].

Section Pipeline.

(** [textract.detect_document_text] and [textract.analyze_document] on
    the bytes of the file at a path, up to and including the lookup of
    ["Blocks"] in the response; opening the file can raise, too. *)
Variable detect_document_text : string -> result (list Block).
Variable analyze_document : string -> list string -> result (list Block).

(** langchain's splitter: the constructor arguments [chunk_size],
    [separators] and [chunk_overlap], then the text given to
    [split_text]. *)
Variable RecursiveCharacterTextSplitter :
  nat -> list string -> nat -> string -> result (list string).

(** Lines 78-82. *)
Fixpoint image_lines (blocks : list Block) (text : string) : result string :=
  match blocks with
  | [] => ret text
  | item :: rest =>
      if String.eqb (BlockType item) "LINE" then
        match Text item with
        | Some t => image_lines rest (text +:+ (t +:+ nl))
        | None => raise (KeyError "Text")
        end
      else image_lines rest text
  end.

(** Lines 72-89. *)
Definition extract_text_from_image (file_path : string) : option string * list event :=
  match (do blocks <- detect_document_text file_path; image_lines blocks "") with
  | inr text => (Some text, [])
  | inl (ClientError msg) => (None, [StError ("Amazon Textract error: " +:+ msg) None])
  | inl e => (None, [StError "Error extracting text: " (Some e)])
  end.

(** Lines 99-103. *)
Fixpoint pdf_lines (blocks : list Block) (text : string) : result string :=
  match blocks with
  | [] => ret text
  | block :: rest =>
      if String.eqb (BlockType block) "LINE" then
        match Text block with
        | Some t => pdf_lines rest (text +:+ (t +:+ nl))
        | None => raise (KeyError "Text")
        end
      else pdf_lines rest text
  end.

(** Lines 92-110. *)
Definition extract_text_from_pdf (file_path : string) : option string * list event :=
  match (do blocks <- analyze_document file_path ["TABLES"; "FORMS"]; pdf_lines blocks "") with
  | inr text => (Some text, [])
  | inl (ClientError msg) => (None, [StError ("Amazon Textract error: " +:+ msg) None])
  | inl e => (None, [StError "Error extracting text from PDF: " (Some e)])
  end.

(** Lines 123-137: what is done with the result of the extraction. *)
Definition split_extracted (extracted_text : option string) : list string * list event :=
  match extracted_text with
  | Some text =>
      if truthy extracted_text then
        match RecursiveCharacterTextSplitter 4000 separators 0 text with
        | inr texts => (texts, [SplitText text])
        | inl e => ([], [SplitText text; StError "Error splitting text into chunks: " (Some e)])
        end
      else ([], [StError "Failed to extract text from the document." None])
  | None => ([], [StError "Failed to extract text from the document." None])
  end.

(** Lines 113-140. *)
Definition process_document (file_path file_type : option string) : list string * list event :=
  match file_path, file_type with
  | Some path, Some type =>
      if truthy file_path && truthy file_type then
        if str_in type ["jpg"; "jpeg"; "tiff"] then
          let '(extracted_text, log) := extract_text_from_image path in
          let '(texts, log') := split_extracted extracted_text in
          (texts, log ++ log')
        else if String.eqb type "pdf" then
          let '(extracted_text, log) := extract_text_from_pdf path in
          let '(texts, log') := split_extracted extracted_text in
          (texts, log ++ log')
        else ([], [StError "Unsupported file format." None])
      else ([], [StError "Invalid file path or file type." None])
  | _, _ => ([], [StError "Invalid file path or file type." None])
  end.

End Pipeline.

(** Whether an event is a call of the splitter. *)
Definition is_split (e : event) : bool :=
  match e with
  | SplitText _ => true
  | StError _ _ => false
  end.

(** The reconstruction rule in the words of the specification: the texts
    of the blocks of type [LINE], in the order returned, each followed by
    one newline. *)
Definition is_line (b : Block) : bool := String.eqb (BlockType b) "LINE".

Definition line_concat (blocks : list Block) : string :=
  String.concat ""
    (map (fun b => default "" (Text b) +:+ nl) (List.filter is_line blocks)).

(** * Intake: [upload_document] *)

(** The object Streamlit hands over: its [name] and the bytes behind
    [getbuffer()]. *)
Record UploadedFile := { name : string; getbuffer : list Byte.byte }.

(** What a path of the file system holds. *)
Inductive node :=
| File (content : list Byte.byte)
| Dir.

Definition upload_folder : string := "./uploaded_files".

(** [s.rfind(c)]: the last index of [c] in [s], or -1. *)
Fixpoint rfind_from (c : ascii) (s : string) (i found : Z) : Z :=
  match s with
  | EmptyString => found
  | String a rest => rfind_from c rest (i + 1)%Z (if Ascii.eqb a c then i else found)
  end.

Definition rfind (c : ascii) (s : string) : Z := rfind_from c s 0%Z (-1)%Z.

(** The slices [p[:i]] and [p[i:]]. *)
Definition slice_to (i : nat) (p : string) : string := String.substring 0 i p.
Definition slice_from (i : nat) (p : string) : string :=
  String.substring i (String.length p - i) p.

Fixpoint ends_with (c : ascii) (s : string) : bool :=
  match s with
  | EmptyString => false
  | String a EmptyString => Ascii.eqb a c
  | String _ rest => ends_with c rest
  end.

(** [os.path.join(a, b)] of [posixpath]. *)
Definition os_path_join (a b : string) : string :=
  if String.prefix "/" b then b
  else if String.eqb a "" || ends_with "/" a then a +:+ b
  else a +:+ "/" +:+ b.

(** The loop of [genericpath._splitext] that skips the leading dots of
    the file name; [n] is [dotIndex - filenameIndex]. *)
Fixpoint splitext_scan (p : string) (dotIndex filenameIndex n : nat) : string * string :=
  match n with
  | O => (p, "")
  | S n' =>
      match String.get filenameIndex p with
      | Some "."%char => splitext_scan p dotIndex (S filenameIndex) n'
      | _ => (slice_to dotIndex p, slice_from dotIndex p)
      end
  end.

(** [os.path.splitext(p)]. *)
Definition os_path_splitext (p : string) : string * string :=
  let sepIndex := rfind "/" p in
  let dotIndex := rfind "." p in
  if (sepIndex <? dotIndex)%Z then
    let filenameIndex := Z.to_nat (sepIndex + 1) in
    splitext_scan p (Z.to_nat dotIndex) filenameIndex (Z.to_nat dotIndex - filenameIndex)
  else (p, "").

Definition os_path_exists (fs : gmap string node) (p : string) : bool :=
  bool_decide (is_Some (fs !! p)).

Definition os_makedirs (fs : gmap string node) (p : string) : gmap string node :=
  <[p := Dir]> fs.

(** [open(path, "wb")] followed by [f.write(data)]: a directory cannot be
    opened for writing; any other path is created or truncated. *)
Definition write_wb (fs : gmap string node) (path : string) (data : list Byte.byte)
    : result (gmap string node) :=
  match fs !! path with
  | Some Dir => raise (OtherError "Is a directory")
  | _ => ret (<[path := File data]> fs)
  end.

(** The path of lines 50-54, with the first eight characters of the
    identifier put between name and extension; [uuid4] is the string of
    the identifier [uuid.uuid4()] draws. *)
Definition renamed_path (f : UploadedFile) (uuid4 : string) : string :=
  let '(file_name, file_extension) := os_path_splitext (name f) in
  let unique_id := String.substring 0 8 uuid4 in
  os_path_join upload_folder (file_name +:+ "_" +:+ unique_id +:+ file_extension).

(** The path the file is written to, lines 46-54. *)
Definition target_path (f : UploadedFile) (uuid4 : string) (fs : gmap string node) : string :=
  let file_path := os_path_join upload_folder (name f) in
  if os_path_exists fs file_path then renamed_path f uuid4 else file_path.

(** Lines 36-64. *)
Definition upload_document (uploaded_file : option UploadedFile) (uuid4 : string)
    (fs : gmap string node) : option string * gmap string node * list event :=
  match uploaded_file with
  | Some f =>
      let fs1 := if os_path_exists fs upload_folder then fs else os_makedirs fs upload_folder in
      let file_path := target_path f uuid4 fs1 in
      match write_wb fs1 file_path (getbuffer f) with
      | inr fs2 => (Some file_path, fs2, [])
      | inl e => (None, fs1, [StError "Error uploading file: " (Some e)])
      end
  | None => (None, fs, [])
  end.

(** The file system [upload_document] leaves behind. *)
Definition fs_after (uploaded_file : option UploadedFile) (uuid4 : string)
    (fs : gmap string node) : gmap string node :=
  snd (fst (upload_document uploaded_file uuid4 fs)).

(** * The text splitter *)

(** [split_text] is a method of langchain's [RecursiveCharacterTextSplitter],
    which the script imports: its code is not part of the repository.  The
    module below follows section 4.1 of the specification. *)
Module Splitter.

(** Modelled from the spec: the pieces of the character-level fallback,
    the empty separator, which splits at any character. *)
Fixpoint chars (text : string) : list string :=
  match text with
  | EmptyString => []
  | String c rest => String c EmptyString :: chars rest
  end.

(** Modelled from the spec: the pieces of [text] between the occurrences
    of a non-empty separator, read from the left; [skip] counts the
    characters of a separator that has just been matched and is still to
    be passed over.  The head of the result is the piece being read. *)
Fixpoint split_go (sep : string) (skip : nat) (text : string) : list string :=
  match text with
  | EmptyString => [EmptyString]
  | String c rest =>
      match skip with
      | S k => split_go sep k rest
      | O =>
          if String.prefix sep text
          then EmptyString :: split_go sep (String.length sep - 1) rest
          else match split_go sep 0 rest with
               | piece :: more => String c piece :: more
               | [] => [String c EmptyString]
               end
      end
  end.

(** Modelled from the spec: splitting a text on one separator of the
    priority list. *)
Definition pieces (sep : string) (text : string) : list string :=
  if String.eqb sep "" then chars text else split_go sep 0 text.

(** Modelled from the spec: emitting a chunk boundary; the chunk being
    built, if any, is emitted. *)
Definition flush (current : option string) : list string :=
  match current with
  | Some chunk => [chunk]
  | None => []
  end.

(** Modelled from the spec: the pass over the pieces of one separator.
    A piece that exceeds the maximum size is re-split on its own by
    [resplit] (the separators of lower priority); adjacent pieces below
    the bound are merged back together, greedily and in order, with the
    separator between them, for as long as the chunk stays within the
    maximum size.  [current] is the chunk being built. *)
Fixpoint assemble (chunk_size : nat) (sep : string) (resplit : string -> list string)
    (current : option string) (parts : list string) : list string :=
  match parts with
  | [] => flush current
  | p :: rest =>
      if chunk_size <? String.length p then
        flush current ++ resplit p ++ assemble chunk_size sep resplit None rest
      else
        match current with
        | None => assemble chunk_size sep resplit (Some p) rest
        | Some chunk =>
            if String.length chunk + String.length sep + String.length p <=? chunk_size
            then assemble chunk_size sep resplit (Some (chunk +:+ sep +:+ p)) rest
            else chunk :: assemble chunk_size sep resplit (Some p) rest
        end
  end.

(** Modelled from the spec: the recursion over the priority list of
    separators.  With no separator left the text is an indivisible unit
    and is emitted as it is. *)
Fixpoint split_rec (chunk_size : nat) (seps : list string) (text : string) : list string :=
  match seps with
  | [] => [text]
  | sep :: lower =>
      assemble chunk_size sep (split_rec chunk_size lower) None (pieces sep text)
  end.

(** Modelled from the spec: the splitter with overlap zero.  The empty
    text yields the empty sequence. *)
Definition split_text (chunk_size : nat) (seps : list string) (text : string) : list string :=
  if String.eqb text "" then [] else split_rec chunk_size seps text.

(** Modelled from the spec: the constructor of the splitter as
    [process_document] calls it; the specification describes the
    mechanism for the overlap zero the script configures, and only that
    value is used below. *)
Definition RecursiveCharacterTextSplitter (chunk_size : nat) (seps : list string)
    (chunk_overlap : nat) (text : string) : result (list string) :=
  ret (split_text chunk_size seps text).

(** Modelled from the spec: chunks concatenated with the separators
    consumed between them reinserted; [gaps] holds what stood between one
    chunk and the next. *)
Fixpoint weave (chunks gaps : list string) : string :=
  match chunks with
  | [] => EmptyString
  | c :: cs =>
      match gaps with
      | [] => c +:+ weave cs []
      | g :: gs => c +:+ g +:+ weave cs gs
      end
  end.

End Splitter.

(** * Concrete services *)

(** A Bedrock service that plays back a script: each call consumes the
    next outcome. *)
Definition scripted_model (body : string) (model_id : option string)
    (script : list (result pyval)) : result pyval * list (result pyval) :=
  match script with
  | r :: rest => (r, rest)
  | [] => (raise (OtherError "no reply left"), [])
  end.

(** A response body with one text part. *)
Definition reply (text : string) : pyval :=
  PyDict [("role", PyStr "assistant");
          ("content", PyList [PyDict [("type", PyStr "text"); ("text", PyStr text)]])].

(** A serializer that renders the three top-level keys only. *)
Definition keys_dumps (v : pyval) : string :=
  match v with
  | PyDict kvs => String.concat "," (map fst kvs)
  | _ => ""
  end.

(** A page of two lines, as Textract returns it: the page block and the
    words come with the lines. *)
Definition two_lines : list Block :=
  [ {| BlockType := "PAGE"; Text := None |};
    {| BlockType := "LINE"; Text := Some "Patient: J. Doe" |};
    {| BlockType := "LINE"; Text := Some "BP 120/80" |};
    {| BlockType := "WORD"; Text := Some "Patient:" |} ].

(** Textract services that answer every file with the same blocks. *)
Definition detect_const (blocks : list Block) (file_path : string) : result (list Block) :=
  ret blocks.

Definition analyze_const (blocks : list Block) (file_path : string)
    (features : list string) : result (list Block) :=
  ret blocks.

(** Every [LINE] block carries a text. *)
Definition lines_have_text (blocks : list Block) : Prop :=
  Forall (fun b => is_line b = true -> is_Some (Text b)) blocks.

(** The claim that an upload never overwrites: whenever the target path
    exists, every file present before the call has the same bytes after
    it. *)
Definition never_overwrites : Prop :=
  forall (f : UploadedFile) (uuid4 : string) (fs : gmap string node)
         (path : string) (content : list Byte.byte),
    os_path_exists fs (os_path_join upload_folder (name f)) = true ->
    fs !! path = Some (File content) ->
    fs_after (Some f) uuid4 fs !! path = Some (File content).

(** An upload of [report.pdf], and two states of the upload folder: one
    that holds an earlier [report.pdf], one that also holds a renamed
    earlier upload. *)
Definition report : UploadedFile :=
  {| name := "report.pdf"; getbuffer := [Byte.x25; Byte.x50; Byte.x44; Byte.x46] |}.

Definition one_report : gmap string node :=
  <["./uploaded_files/report.pdf" := File [Byte.x01]]>
    (<["./uploaded_files" := Dir]> ∅).

Definition two_reports : gmap string node :=
  <["./uploaded_files/report_1b4e28ba.pdf" := File [Byte.x02]]> one_report.

Definition drawn_uuid : string := "1b4e28ba-2fa1-41d2-883f-0016d3cca427".

(** [text[n:]]. *)
Fixpoint drop_str (n : nat) (text : string) : string :=
  match n, text with
  | S k, String _ rest => drop_str k rest
  | _, _ => text
  end.

(** [chunks] put back together with separators of [seps] between them
    give [text]. *)
Definition rejoins (seps chunks : list string) (text : string) : Prop :=
  exists gaps : list string,
    length gaps = length chunks - 1 /\
    Forall (fun g => g ∈ seps) gaps /\
    Splitter.weave chunks gaps = text.

(** ** Observing the calls *)

(** A Bedrock service that also keeps the bodies it was sent, in the
    order of the calls. *)
Definition recording {World : Type}
    (invoke_model : string -> option string -> World -> result pyval * World)
    (body : string) (model_id : option string) (st : World * list string)
    : result pyval * (World * list string) :=
  let '(r, w') := invoke_model body model_id (fst st) in
  (r, (w', snd st ++ [body])).

(** The number of calls the loop of [generate_summary] makes: one per
    chunk up to and including the first chunk whose step raises. *)
Fixpoint calls_made {World : Type} (json_dumps : pyval -> string)
    (BEDROCK_MODEL : option string)
    (invoke_model : string -> option string -> World -> result pyval * World)
    (documents : list string) (w : World) : nat :=
  match documents with
  | [] => 0
  | chunk :: rest =>
      match summarize_chunk json_dumps BEDROCK_MODEL invoke_model chunk w with
      | (inr _, w') => S (calls_made json_dumps BEDROCK_MODEL invoke_model rest w')
      | (inl _, _) => 1
      end
  end.

(** Whether an event is an [st.error] box. *)
Definition is_error (e : event) : bool :=
  match e with
  | StError _ _ => true
  | SplitText _ => false
  end.

(** Textract services that fail on every file. *)
Definition detect_fails (e : exn) (file_path : string) : result (list Block) :=
  raise e.

Definition analyze_fails (e : exn) (file_path : string) (features : list string)
    : result (list Block) :=
  raise e.

(** A page whose second line came back without its text. *)
Definition broken_line : list Block :=
  [ {| BlockType := "LINE"; Text := Some "Patient: J. Doe" |} ]
    ++ {| BlockType := "LINE"; Text := None |}
    :: [ {| BlockType := "LINE"; Text := Some "BP 120/80" |} ].


(** * The script: lines 183-212 *)

(** What Streamlit is asked to display: the calls of the script itself,
    and the events of the functions it calls. *)
Inductive shown :=
| StTitle (text : string)
| StInfo (text : string)
| StWrite (text : string)
| StSubheader (text : string)
| Logged (e : event).

Definition shows_summary (s : shown) : bool :=
  match s with
  | StSubheader _ => true
  | _ => false
  end.

Definition shows_error (s : shown) : bool :=
  match s with
  | Logged (StError _ _) => true
  | _ => false
  end.

(** [name.split(".")[-1]]: what follows the last dot, the whole name when
    it has no dot. *)
Definition after_last_dot (file_name : string) : string :=
  slice_from (Z.to_nat (rfind "." file_name + 1)) file_name.

(** [open(file_path, 'rb')] followed by [document.read()]. *)
Definition open_rb (fs : gmap string node) (file_path : string) : result (list Byte.byte) :=
  match fs !! file_path with
  | Some (File content) => ret content
  | Some Dir => raise (OtherError "Is a directory")
  | None => raise (OtherError "No such file or directory")
  end.

Section Script.

Context {World : Type}.

(** [str.lower]. *)
Variable str_lower : string -> string.

Variable json_dumps : pyval -> string.
Variable BEDROCK_MODEL : option string.
Variable invoke_model : string -> option string -> World -> result pyval * World.

(** The two Textract operations on the bytes of a document. *)
Variable textract_detect : list Byte.byte -> result (list Block).
Variable textract_analyze : list Byte.byte -> list string -> result (list Block).

Variable RecursiveCharacterTextSplitter :
  nat -> list string -> nat -> string -> result (list string).

(** Lines 74-76 and 94-98: the file is opened and read, and its bytes are
    sent to the service. *)
Definition detect_at (fs : gmap string node) (file_path : string) : result (list Block) :=
  do data <- open_rb fs file_path; textract_detect data.

Definition analyze_at (fs : gmap string node) (file_path : string)
    (features : list string) : result (list Block) :=
  do data <- open_rb fs file_path; textract_analyze data features.

(** Lines 204-208. *)
Definition show_summary (summary : option string) : list shown :=
  match summary with
  | Some text =>
      if truthy summary then [StSubheader "Generated Summary"; StWrite text]
      else [Logged (StError "Failed to generate summary." None)]
  | None => [Logged (StError "Failed to generate summary." None)]
  end.

(** Lines 184-212, for the file the uploader widget returns. *)
Definition streamlit_ui (uploaded_file : option UploadedFile) (uuid4 : string)
    (fs : gmap string node) (w : World) : list shown * gmap string node * World :=
  let title := StTitle "Medical Document Summarization" in
  match uploaded_file with
  | Some f =>
      let file_type := str_lower (after_last_dot (name f)) in
      let '(file_path, fs', log1) := upload_document uploaded_file uuid4 fs in
      if truthy file_path then
        let '(texts, log2) :=
          process_document (detect_at fs') (analyze_at fs') RecursiveCharacterTextSplitter
            file_path (Some file_type) in
        let processing :=
          title :: map Logged log1
            ++ StWrite ("Processing document: " +:+ name f) :: map Logged log2 in
        match texts with
        | _ :: _ =>
            let '(summary, w', log3) :=
              generate_summary json_dumps BEDROCK_MODEL invoke_model texts w in
            (processing ++ StWrite "Generating summary..." :: map Logged log3
               ++ show_summary summary,
             fs', w')
        | [] => (processing, fs', w)
        end
      else
        (title :: map Logged log1
           ++ [Logged (StError "Failed to upload the document." None)],
         fs', w)
  | None =>
      ([title; StInfo "Please upload a medical document to get started."], fs, w)
  end.

End Script.

(** Lower case on the letters A to Z, which is what [str.lower] does to
    them. *)
Definition ascii_lower (c : ascii) : ascii :=
  let n := nat_of_ascii c in
  if (65 <=? n) && (n <=? 90) then ascii_of_nat (n + 32) else c.

Fixpoint lower_letters (s : string) : string :=
  match s with
  | EmptyString => EmptyString
  | String c rest => String (ascii_lower c) (lower_letters rest)
  end.


(** A file system in which the path [report] would be renamed to is a
    directory. *)
Definition blocked_fs : gmap string node :=
  <["./uploaded_files/report_1b4e28ba.pdf" := Dir]> one_report.

(** Textract operations that answer every document with the same
    blocks. *)
Definition detect_bytes_const (blocks : list Block) (data : list Byte.byte)
    : result (list Block) :=
  ret blocks.

Definition analyze_bytes_const (blocks : list Block) (data : list Byte.byte)
    (features : list string) : result (list Block) :=
  ret blocks.

(** * Strings *)

Lemma append_assoc (a b c : string) : (a +:+ b) +:+ c = a +:+ (b +:+ c).
Proof. induction a as [|x a IH]; simpl; [reflexivity|]. rewrite IH. reflexivity. Qed.

Lemma append_empty_r (a : string) : a +:+ "" = a.
Proof. induction a as [|x a IH]; simpl; [reflexivity|]. rewrite IH. reflexivity. Qed.

Lemma length_append (a b : string) :
  String.length (a +:+ b) = String.length a + String.length b.
Proof. induction a as [|x a IH]; simpl; [reflexivity|]. rewrite IH. reflexivity. Qed.

Lemma concat_empty_cons (s : string) (ss : list string) :
  String.concat "" (s :: ss) = s +:+ String.concat "" ss.
Proof.
  destruct ss as [|s' ss]; simpl; [|reflexivity].
  rewrite append_empty_r. reflexivity.
Qed.

(** * Properties of the summarizer *)

Section SummarizerFacts.

Context {World : Type}.
Variable json_dumps : pyval -> string.
Variable BEDROCK_MODEL : option string.
Variable invoke_model : string -> option string -> World -> result pyval * World.

Local Abbreviation loop := (for_chunks json_dumps BEDROCK_MODEL invoke_model).
Local Abbreviation step := (summarize_chunk json_dumps BEDROCK_MODEL invoke_model).
Local Abbreviation body_of := (request_body json_dumps).
Local Abbreviation calls := (answered json_dumps BEDROCK_MODEL invoke_model).

Lemma py_strs_map (ss : list string) : py_strs (map PyStr ss) = inr ss.
Proof.
  induction ss as [|s ss IH]; simpl; [reflexivity|].
  rewrite IH. reflexivity.
Qed.

Lemma py_strs_inv (items : list pyval) :
  forall ss, py_strs items = inr ss -> items = map PyStr ss.
Proof.
  induction items as [|v items IH]; intros ss H; simpl in H.
  - injection H as <-. reflexivity.
  - destruct v; try discriminate.
    destruct (py_strs items) as [e|ss'] eqn:E; simpl in H; [discriminate|].
    injection H as <-. simpl. f_equal. apply IH. reflexivity.
Qed.

Lemma step_answered chunk w response w' text :
  invoke_model (body_of chunk) BEDROCK_MODEL w = (inr response, w') ->
  first_text response = inr text ->
  step chunk w = (inr text, w').
Proof.
  intros Hcall Htext. unfold summarize_chunk. rewrite Hcall. simpl.
  rewrite Htext. reflexivity.
Qed.

Lemma step_raises chunk w e w' :
  invoke_model (body_of chunk) BEDROCK_MODEL w = (inl e, w') ->
  step chunk w = (inl e, w').
Proof.
  intros Hcall. unfold summarize_chunk. rewrite Hcall. reflexivity.
Qed.

(** While every call is answered with a usable first part, the loop
    appends the texts in order and raises nothing. *)
Lemma for_chunks_answered documents w responses w' :
  calls documents w responses w' ->
  forall texts summaries log,
    texts_of responses texts ->
    loop documents summaries w log = (Some (summaries ++ texts), w', log).
Proof.
  induction 1 as [w|chunk rest w response w' responses w'' Hcall Hrest IH];
    intros texts summaries log Htexts; inversion Htexts; subst; simpl.
  - rewrite app_nil_r. reflexivity.
  - erewrite step_answered by eassumption.
    rewrite (IH _ (summaries ++ [_]) log ltac:(eassumption)).
    rewrite <- app_assoc. reflexivity.
Qed.

(** A step that raises after answered steps ends the loop with [None]. *)
Lemma for_chunks_aborts before w responses w1 texts chunk e w2 after :
  calls before w responses w1 ->
  texts_of responses texts ->
  step chunk w1 = (inl e, w2) ->
  forall summaries log,
    loop (before ++ chunk :: after) summaries w log
    = (None, w2, log ++ [inner_handler e]).
Proof.
  intros Hcalls. revert texts.
  induction Hcalls as [w|c rest w response w' responses w'' Hcall Hrest IH];
    intros texts Htexts Hstep summaries log; inversion Htexts; subst; simpl.
  - rewrite Hstep. reflexivity.
  - erewrite step_answered by eassumption.
    eapply IH; eassumption.
Qed.

(** A loop that ends normally has had every call answered. *)
Lemma for_chunks_Some documents :
  forall summaries w log out w' log',
    loop documents summaries w log = (Some out, w', log') ->
    exists responses texts,
      calls documents w responses w' /\ texts_of responses texts /\
      out = summaries ++ texts /\ log' = log.
Proof.
  induction documents as [|chunk rest IH]; intros summaries w log out w' log' H;
    simpl in H.
  - injection H as <- <- <-. exists [], []. repeat split.
    + constructor.
    + constructor.
    + rewrite app_nil_r. reflexivity.
  - unfold summarize_chunk in H.
    destruct (invoke_model (body_of chunk) BEDROCK_MODEL w) as [r w1] eqn:Hcall.
    destruct r as [e|response]; simpl in H; [discriminate|].
    destruct (first_text response) as [e|text] eqn:Htext; [discriminate|].
    destruct (IH _ _ _ _ _ _ H) as (responses & texts & Hc & Ht & -> & ->).
    exists (response :: responses), (text :: texts). repeat split.
    + econstructor; eassumption.
    + constructor; assumption.
    + rewrite <- app_assoc. reflexivity.
Qed.

Lemma answered_length documents w responses w' :
  calls documents w responses w' -> length responses = length documents.
Proof. induction 1; simpl; congruence. Qed.

Lemma first_text_no_content kvs :
  dict_lookup "content" kvs = None -> first_text (PyDict kvs) = inl TypeError.
Proof. intros H. unfold first_text, py_get. rewrite H. reflexivity. Qed.

Lemma first_text_empty_content kvs :
  dict_lookup "content" kvs = Some (PyList []) -> first_text (PyDict kvs) = inl IndexError.
Proof. intros H. unfold first_text, py_get. rewrite H. reflexivity. Qed.

(** C1: when every per-chunk call is answered and the first content part
    of the i-th response carries the string [ss_i], [generate_summary]
    returns the strings [ss] joined by one space, in chunk order, and
    reports no error. *)
Theorem generate_summary_joins documents w responses w' (ss : list string) :
  calls documents w responses w' ->
  texts_of responses (map PyStr ss) ->
  generate_summary json_dumps BEDROCK_MODEL invoke_model documents w
  = (Some (String.concat " " ss), w', []).
Proof.
  intros Hcalls Htexts. unfold generate_summary.
  rewrite (for_chunks_answered _ _ _ _ Hcalls _ [] [] Htexts). simpl.
  unfold py_join. rewrite py_strs_map. reflexivity.
Qed.

(** C2: if the calls for the chunks before chunk k were answered and the
    call for chunk k raises, [generate_summary] returns [None], whatever
    the earlier summaries and the later chunks are. *)
Theorem generate_summary_all_or_nothing before w responses w1 texts chunk e w2 after :
  calls before w responses w1 ->
  texts_of responses texts ->
  invoke_model (body_of chunk) BEDROCK_MODEL w1 = (inl e, w2) ->
  summary_of json_dumps BEDROCK_MODEL invoke_model (before ++ chunk :: after) w = None.
Proof.
  intros Hcalls Htexts Hcall. unfold summary_of, generate_summary.
  rewrite (for_chunks_aborts _ _ _ _ _ _ e w2 after Hcalls Htexts
             (step_raises _ _ _ _ Hcall) [] []).
  reflexivity.
Qed.

(** C3: when [generate_summary] returns a summary, every chunk was
    answered, there are as many joined summaries as chunks, in chunk
    order, and the i-th one is the text of the first content part of the
    response to the i-th chunk. *)
Theorem generate_summary_order documents w summary w' log :
  generate_summary json_dumps BEDROCK_MODEL invoke_model documents w
  = (Some summary, w', log) ->
  exists (responses : list pyval) (ss : list string),
    calls documents w responses w' /\
    texts_of responses (map PyStr ss) /\
    length ss = length documents /\
    summary = String.concat " " ss.
Proof.
  unfold generate_summary. intros H.
  destruct (loop documents [] w []) as [[[out|] w1] log1] eqn:Hloop; [|discriminate].
  unfold py_join in H.
  destruct (py_strs out) as [e|ss] eqn:Hstrs; simpl in H; [discriminate|].
  injection H as <- <- <-.
  destruct (for_chunks_Some _ _ _ _ _ _ _ Hloop) as (responses & texts & Hc & Ht & -> & _).
  simpl in Hstrs. apply py_strs_inv in Hstrs. subst texts.
  exists responses, ss. repeat split; try assumption.
  rewrite <- (answered_length _ _ _ _ Hc).
  apply Forall2_length in Ht. rewrite length_map in Ht. congruence.
Qed.

(** C9: a response body without a ["content"] key, or with an empty
    content list, makes the step of its chunk raise (the fallback string
    is indexed, never appended), and [generate_summary] returns [None]
    after reporting that exception. *)
Theorem generate_summary_no_content before w responses w1 texts chunk kvs w2 after :
  calls before w responses w1 ->
  texts_of responses texts ->
  invoke_model (body_of chunk) BEDROCK_MODEL w1 = (inr (PyDict kvs), w2) ->
  dict_lookup "content" kvs = None \/ dict_lookup "content" kvs = Some (PyList []) ->
  exists e,
    first_text (PyDict kvs) = inl e /\
    generate_summary json_dumps BEDROCK_MODEL invoke_model (before ++ chunk :: after) w
    = (None, w2, [StError "Error invoking the Claude model: " (Some e)]).
Proof.
  intros Hcalls Htexts Hcall Hcontent.
  assert (Hraise : exists e, first_text (PyDict kvs) = inl e /\
                             inner_handler e
                             = StError "Error invoking the Claude model: " (Some e)).
  { destruct Hcontent as [H|H].
    - exists TypeError. split; [apply first_text_no_content, H|reflexivity].
    - exists IndexError. split; [apply first_text_empty_content, H|reflexivity]. }
  destruct Hraise as (e & Hfirst & Hhandler).
  exists e. split; [exact Hfirst|].
  assert (Hstep : step chunk w1 = (inl e, w2)).
  { unfold summarize_chunk. rewrite Hcall. simpl. rewrite Hfirst. reflexivity. }
  unfold generate_summary.
  rewrite (for_chunks_aborts _ _ _ _ _ _ e w2 after Hcalls Htexts Hstep [] []).
  simpl. rewrite Hhandler. reflexivity.
Qed.

End SummarizerFacts.

(** Scenario 6: two chunks summarized to "S1" and "S2". *)
Lemma generate_summary_joins_witness :
  generate_summary keys_dumps (Some "model") scripted_model
    ["first chunk"; "second chunk"] [inr (reply "S1"); inr (reply "S2")]
  = (Some "S1 S2", [], []).
Proof.
  apply (generate_summary_joins keys_dumps (Some "model") scripted_model
           ["first chunk"; "second chunk"] [inr (reply "S1"); inr (reply "S2")]
           [reply "S1"; reply "S2"] [] ["S1"; "S2"]).
  - apply answered_cons with (w' := [inr (reply "S2")]); [reflexivity|].
    apply answered_cons with (w' := []); [reflexivity|]. apply answered_nil.
  - repeat constructor.
Defined.

(** Scenario 5: three chunks, the third call fails. *)
Lemma generate_summary_all_or_nothing_witness :
  summary_of keys_dumps (Some "model") scripted_model
    (["one"; "two"] ++ "three" :: [])
    [inr (reply "S1"); inr (reply "S2"); inl (ClientError "throttled")]
  = None.
Proof.
  apply (generate_summary_all_or_nothing keys_dumps (Some "model") scripted_model
           ["one"; "two"]
           [inr (reply "S1"); inr (reply "S2"); inl (ClientError "throttled")]
           [reply "S1"; reply "S2"] [inl (ClientError "throttled")]
           [PyStr "S1"; PyStr "S2"] "three" (ClientError "throttled") [] []).
  - apply answered_cons with (w' := [inr (reply "S2"); inl (ClientError "throttled")]);
      [reflexivity|].
    apply answered_cons with (w' := [inl (ClientError "throttled")]); [reflexivity|].
    apply answered_nil.
  - repeat constructor.
  - reflexivity.
Defined.

Lemma generate_summary_order_witness :
  exists (responses : list pyval) (ss : list string),
    answered keys_dumps (Some "model") scripted_model
      ["first chunk"; "second chunk"] [inr (reply "S1"); inr (reply "S2")] responses [] /\
    texts_of responses (map PyStr ss) /\
    length ss = length ["first chunk"; "second chunk"] /\
    "S1 S2" = String.concat " " ss.
Proof.
  apply (generate_summary_order keys_dumps (Some "model") scripted_model
           ["first chunk"; "second chunk"] [inr (reply "S1"); inr (reply "S2")]
           "S1 S2" [] []).
  reflexivity.
Defined.

Lemma generate_summary_no_content_witness :
  exists e,
    first_text (PyDict [("role", PyStr "assistant")]) = inl e /\
    generate_summary keys_dumps (Some "model") scripted_model
      (["one"] ++ "two" :: ["three"])
      [inr (reply "S1"); inr (PyDict [("role", PyStr "assistant")]); inr (reply "S3")]
    = (None, [inr (reply "S3")], [StError "Error invoking the Claude model: " (Some e)]).
Proof.
  apply (generate_summary_no_content keys_dumps (Some "model") scripted_model
           ["one"]
           [inr (reply "S1"); inr (PyDict [("role", PyStr "assistant")]); inr (reply "S3")]
           [reply "S1"]
           [inr (PyDict [("role", PyStr "assistant")]); inr (reply "S3")]
           [PyStr "S1"] "two" [("role", PyStr "assistant")] [inr (reply "S3")] ["three"]).
  - apply answered_cons with (w' := [inr (PyDict [("role", PyStr "assistant")]); inr (reply "S3")]);
      [reflexivity|].
    apply answered_nil.
  - repeat constructor.
  - reflexivity.
  - left. reflexivity.
Defined.

(** * Properties of extraction and chunking *)

Section PipelineFacts.

Variable detect_document_text : string -> result (list Block).
Variable analyze_document : string -> list string -> result (list Block).
Variable RecursiveCharacterTextSplitter :
  nat -> list string -> nat -> string -> result (list string).

Local Abbreviation from_image := (extract_text_from_image detect_document_text).
Local Abbreviation from_pdf := (extract_text_from_pdf analyze_document).
Local Abbreviation process :=
  (process_document detect_document_text analyze_document RecursiveCharacterTextSplitter).

(** The two loops are the same function. *)
Lemma image_pdf_lines (blocks : list Block) :
  forall text, image_lines blocks text = pdf_lines blocks text.
Proof.
  induction blocks as [|b blocks IH]; intros text; simpl; [reflexivity|].
  destruct (String.eqb (BlockType b) "LINE"); [|apply IH].
  destruct (Text b); [apply IH|reflexivity].
Qed.

(** On a well-formed response the loop appends the lines to what it
    starts from. *)
Lemma line_concat_cons (b : Block) (blocks : list Block) :
  line_concat (b :: blocks)
  = if is_line b then (default "" (Text b) +:+ nl) +:+ line_concat blocks
    else line_concat blocks.
Proof.
  unfold line_concat. cbn [List.filter]. destruct (is_line b); [|reflexivity].
  cbn [map]. apply concat_empty_cons.
Qed.

Lemma image_lines_concat (blocks : list Block) :
  lines_have_text blocks ->
  forall text, image_lines blocks text = inr (text +:+ line_concat blocks).
Proof.
  induction 1 as [|b blocks Hb Hrest IH]; intros text.
  - cbn. rewrite append_empty_r. reflexivity.
  - rewrite line_concat_cons. cbn [image_lines]. fold (is_line b).
    destruct (is_line b) eqn:Hline.
    + destruct (Hb eq_refl) as [t Ht]. rewrite Ht. cbn [default].
      rewrite IH, !append_assoc. reflexivity.
    + apply IH.
Qed.

(** Without a [LINE] block the loop leaves the text as it is. *)
Lemma image_lines_no_line (blocks : list Block) :
  Forall (fun b => is_line b = false) blocks ->
  forall text, image_lines blocks text = inr text.
Proof.
  induction 1 as [|b blocks Hb Hrest IH]; intros text; simpl; [reflexivity|].
  unfold is_line in Hb. rewrite Hb. apply IH.
Qed.

(** The extractors log [st.error] boxes only. *)
Lemma from_image_no_split file_path : existsb is_split (snd (from_image file_path)) = false.
Proof.
  unfold extract_text_from_image.
  destruct (do blocks <- detect_document_text file_path; image_lines blocks "") as [[]|];
    reflexivity.
Qed.

Lemma from_pdf_no_split file_path : existsb is_split (snd (from_pdf file_path)) = false.
Proof.
  unfold extract_text_from_pdf.
  destruct (do blocks <- analyze_document file_path ["TABLES"; "FORMS"]; pdf_lines blocks "")
    as [[]|]; reflexivity.
Qed.

(** A response without a [LINE] block is extracted to the empty string. *)
Lemma from_image_no_line file_path blocks :
  detect_document_text file_path = inr blocks ->
  Forall (fun b => is_line b = false) blocks ->
  from_image file_path = (Some "", []).
Proof.
  intros Hdetect Hnone. unfold extract_text_from_image.
  rewrite Hdetect. cbn [bind]. rewrite (image_lines_no_line _ Hnone). reflexivity.
Qed.

(** An empty or absent text is reported and not split. *)
Lemma split_extracted_nothing extracted :
  extracted = None \/ extracted = Some "" ->
  split_extracted RecursiveCharacterTextSplitter extracted
  = ([], [StError "Failed to extract text from the document." None]).
Proof. intros [->| ->]; reflexivity. Qed.

Lemma str_in_nonempty (x : string) (xs : list string) :
  str_in x xs = true -> Forall (fun y => y <> "") xs -> String.eqb x "" = false.
Proof.
  unfold str_in. intros Hin Hxs.
  apply existsb_exists in Hin as (y & Hy & Heq).
  apply String.eqb_eq in Heq. subst y.
  rewrite Forall_forall in Hxs. apply String.eqb_neq, Hxs, list_elem_of_In, Hy.
Qed.

(** C7: on the same block sequence the image-mode and the PDF-mode
    extractor return the same text, and where every [LINE] block carries
    its text that text is the concatenation, in the order returned, of the
    texts of the [LINE] blocks, each followed by one newline; the features
    requested in PDF mode play no part. *)
Theorem extractors_same_rule image_path pdf_path blocks :
  detect_document_text image_path = inr blocks ->
  analyze_document pdf_path ["TABLES"; "FORMS"] = inr blocks ->
  fst (from_image image_path) = fst (from_pdf pdf_path) /\
  (lines_have_text blocks ->
   fst (from_image image_path) = Some (line_concat blocks) /\
   fst (from_pdf pdf_path) = Some (line_concat blocks)).
Proof.
  intros Hdetect Hanalyze.
  unfold extract_text_from_image, extract_text_from_pdf.
  rewrite Hdetect, Hanalyze. cbn [bind]. rewrite <- (image_pdf_lines blocks ""). split.
  - destruct (image_lines blocks "") as [[]|]; reflexivity.
  - intros Hwf. rewrite (image_lines_concat _ Hwf). split; reflexivity.
Qed.

(** C8: when the extractor chosen for the file type returns the empty
    string or nothing, [process_document] reports "Failed to extract text
    from the document.", returns no chunk, and the log of the run holds no
    call of the splitter. *)
Theorem no_text_no_split path type extracted log :
  path <> "" ->
  (str_in type ["jpg"; "jpeg"; "tiff"] = true /\ from_image path = (extracted, log)) \/
  (type = "pdf" /\ from_pdf path = (extracted, log)) ->
  extracted = None \/ extracted = Some "" ->
  process (Some path) (Some type)
  = ([], log ++ [StError "Failed to extract text from the document." None]) /\
  existsb is_split (snd (process (Some path) (Some type))) = false.
Proof.
  intros Hpath Hextract Hnone.
  assert (Hrun : process (Some path) (Some type)
                 = ([], log ++ [StError "Failed to extract text from the document." None])).
  { assert (Htype : String.eqb type "" = false).
    { destruct Hextract as [[Htype _]|[-> _]]; [|reflexivity].
      apply (str_in_nonempty _ _ Htype). repeat constructor; discriminate. }
    unfold process_document, truthy.
    apply String.eqb_neq in Hpath. rewrite Hpath, Htype. cbn [negb andb].
    destruct Hextract as [[Hin Hex]|[-> Hex]].
    - rewrite Hin, Hex, (split_extracted_nothing _ Hnone). reflexivity.
    - change (str_in "pdf" ["jpg"; "jpeg"; "tiff"]) with false.
      rewrite String.eqb_refl, Hex, (split_extracted_nothing _ Hnone). reflexivity. }
  split; [exact Hrun|].
  rewrite Hrun. simpl. rewrite existsb_app. simpl. rewrite orb_false_r.
  destruct Hextract as [[_ Hex]|[_ Hex]].
  - rewrite <- (from_image_no_split path), Hex. reflexivity.
  - rewrite <- (from_pdf_no_split path), Hex. reflexivity.
Qed.

End PipelineFacts.

Lemma extractors_same_rule_witness :
  fst (extract_text_from_image (detect_const two_lines) "scan.jpg")
  = Some (line_concat two_lines) /\
  fst (extract_text_from_pdf (analyze_const two_lines) "scan.pdf")
  = Some (line_concat two_lines).
Proof.
  apply (proj2 (extractors_same_rule (detect_const two_lines) (analyze_const two_lines)
                  "scan.jpg" "scan.pdf" two_lines eq_refl eq_refl)).
  unfold lines_have_text, two_lines.
  repeat (apply List.Forall_cons; [cbn; intros H; try discriminate H; eexists; reflexivity|]).
  apply List.Forall_nil.
Defined.

(** Scenario 4: the OCR call returns zero blocks. *)
Lemma no_text_no_split_witness :
  process_document (detect_const []) (analyze_const [])
    Splitter.RecursiveCharacterTextSplitter (Some "scan.jpg") (Some "jpg")
  = ([], [] ++ [StError "Failed to extract text from the document." None]) /\
  existsb is_split
    (snd (process_document (detect_const []) (analyze_const [])
            Splitter.RecursiveCharacterTextSplitter (Some "scan.jpg") (Some "jpg")))
  = false.
Proof.
  apply (no_text_no_split (detect_const []) (analyze_const [])
           Splitter.RecursiveCharacterTextSplitter "scan.jpg" "jpg" (Some "") []).
  - discriminate.
  - left. split; reflexivity.
  - right. reflexivity.
Defined.

(** * Properties of the intake *)

Lemma upload_path_not_folder (b : string) : os_path_join upload_folder b <> upload_folder.
Proof.
  unfold os_path_join.
  destruct (String.prefix "/" b) eqn:Hprefix.
  - intros Heq. rewrite Heq in Hprefix. vm_compute in Hprefix. discriminate Hprefix.
  - change (String.eqb upload_folder "" || ends_with "/" upload_folder) with false.
    cbn match. intros Heq. apply (f_equal String.length) in Heq.
    rewrite !length_append in Heq. cbn in Heq. lia.
Qed.


Lemma exists_false (fs : gmap string node) (p : string) :
  os_path_exists fs p = false <-> fs !! p = None.
Proof.
  unfold os_path_exists. rewrite bool_decide_eq_false, eq_None_not_Some. reflexivity.
Qed.

(** Creating the upload folder leaves what was there as it was. *)
Lemma folder_step_frame (fs : gmap string node) (path : string) (n : node) :
  fs !! path = Some n ->
  (if os_path_exists fs upload_folder then fs else os_makedirs fs upload_folder) !! path
  = Some n.
Proof.
  intros Hpath. destruct (os_path_exists fs upload_folder) eqn:Hfolder; [exact Hpath|].
  apply exists_false in Hfolder. unfold os_makedirs.
  rewrite lookup_insert_ne; [exact Hpath|]. intros <-. congruence.
Qed.

Lemma folder_step_exists (fs : gmap string node) (p : string) :
  p <> upload_folder ->
  os_path_exists (if os_path_exists fs upload_folder then fs
                  else os_makedirs fs upload_folder) p
  = os_path_exists fs p.
Proof.
  intros Hp. destruct (os_path_exists fs upload_folder); [reflexivity|].
  unfold os_path_exists, os_makedirs. rewrite lookup_insert_ne by congruence. reflexivity.
Qed.

(** C10, as the code has it: when the renamed path is not taken already
    (or the target path is free), whatever the file system held before
    the call it still holds after it. *)
Theorem upload_document_frame (f : UploadedFile) (uuid4 : string) (fs : gmap string node) :
  (os_path_exists fs (os_path_join upload_folder (name f)) = true ->
   os_path_exists fs (renamed_path f uuid4) = false) ->
  forall (path : string) (n : node),
    fs !! path = Some n ->
    fs_after (Some f) uuid4 fs !! path = Some n.
Proof.
  intros Hfresh path n Hpath. unfold fs_after, upload_document.
  pose proof (folder_step_frame fs path n Hpath) as Hpath1.
  set (fs1 := if os_path_exists fs upload_folder then fs else os_makedirs fs upload_folder) in *.
  assert (Hfree : fs !! target_path f uuid4 fs1 = None).
  { unfold target_path, fs1.
    rewrite folder_step_exists by apply upload_path_not_folder.
    destruct (os_path_exists fs (os_path_join upload_folder (name f))) eqn:Htaken.
    - apply exists_false, Hfresh. reflexivity.
    - apply exists_false, Htaken. }
  unfold write_wb.
  destruct (fs1 !! target_path f uuid4 fs1) as [[content|]|] eqn:Hat; cbn;
    try exact Hpath1;
    (rewrite lookup_insert_ne; [exact Hpath1|]; intros Heq; congruence).
Qed.

Lemma upload_document_frame_witness :
  fs_after (Some report) drawn_uuid one_report !! "./uploaded_files/report.pdf"
  = Some (File [Byte.x01]).
Proof.
  apply (upload_document_frame report drawn_uuid one_report).
  - intros _. vm_compute. reflexivity.
  - vm_compute. reflexivity.
Defined.

(** C10, as stated, fails: with [report.pdf] and [report_1b4e28ba.pdf]
    both present, an upload of [report.pdf] for which [uuid4] draws an
    identifier starting with [1b4e28ba] replaces the bytes of the second
    file. *)
Lemma upload_overwrites_on_collision :
  os_path_exists two_reports (os_path_join upload_folder (name report)) = true /\
  two_reports !! "./uploaded_files/report_1b4e28ba.pdf" = Some (File [Byte.x02]) /\
  fs_after (Some report) drawn_uuid two_reports !! "./uploaded_files/report_1b4e28ba.pdf"
  = Some (File (getbuffer report)) /\
  ~ never_overwrites.
Proof.
  assert (H1 : os_path_exists two_reports (os_path_join upload_folder (name report)) = true)
    by (vm_compute; reflexivity).
  assert (H2 : two_reports !! "./uploaded_files/report_1b4e28ba.pdf" = Some (File [Byte.x02]))
    by (vm_compute; reflexivity).
  assert (H3 : fs_after (Some report) drawn_uuid two_reports
               !! "./uploaded_files/report_1b4e28ba.pdf" = Some (File (getbuffer report)))
    by (vm_compute; reflexivity).
  repeat split; try assumption.
  intros Hnever. specialize (Hnever report drawn_uuid two_reports _ _ H1 H2).
  rewrite H3 in Hnever. discriminate Hnever.
Qed.

(** * Properties of the splitter *)

Module SplitterFacts.
Import Splitter.

Lemma concat_cons (sep x : string) (xs : list string) :
  xs <> [] -> String.concat sep (x :: xs) = x +:+ sep +:+ String.concat sep xs.
Proof. destruct xs; [congruence|reflexivity]. Qed.

Lemma concat_merge (sep c p : string) (ps : list string) :
  String.concat sep (c :: p :: ps) = String.concat sep ((c +:+ sep +:+ p) :: ps).
Proof.
  destruct ps as [|q ps]; [reflexivity|].
  rewrite (concat_cons sep c) by discriminate.
  rewrite (concat_cons sep p) by discriminate.
  rewrite (concat_cons sep (c +:+ sep +:+ p)) by discriminate.
  rewrite !append_assoc. reflexivity.
Qed.

Lemma concat_head_length (sep p : string) (ps : list string) :
  String.length p <= String.length (String.concat sep (p :: ps)).
Proof.
  destruct ps as [|q ps]; [reflexivity|].
  rewrite concat_cons by discriminate. rewrite length_append. lia.
Qed.

(** ** Pieces *)

Lemma chars_concat (text : string) : String.concat "" (chars text) = text.
Proof.
  induction text as [|c text IH]; [reflexivity|].
  cbn [chars]. rewrite concat_empty_cons, IH. reflexivity.
Qed.

Lemma chars_length (text p : string) : p ∈ chars text -> String.length p = 1.
Proof.
  induction text as [|c text IH]; cbn [chars]; intros Hin.
  - inversion Hin.
  - apply elem_of_cons in Hin as [->|Hin]; [reflexivity|apply IH, Hin].
Qed.

Lemma split_go_nonempty (sep : string) (text : string) :
  forall skip, split_go sep skip text <> [].
Proof.
  induction text as [|c text IH]; intros skip; cbn [split_go]; [discriminate|].
  destruct skip as [|k]; [|apply IH].
  destruct (String.prefix sep (String c text)); [discriminate|].
  destruct (split_go sep 0 text); discriminate.
Qed.

Lemma prefix_drop (sep : string) :
  forall text, String.prefix sep text = true ->
               text = sep +:+ drop_str (String.length sep) text.
Proof.
  induction sep as [|a sep IH]; intros text H; [destruct text; reflexivity|].
  destruct text as [|b text]; [discriminate H|]. cbn [String.prefix] in H.
  destruct (Ascii.ascii_dec a b) as [->|]; [|discriminate H].
  cbn. f_equal. apply IH, H.
Qed.

Lemma split_go_concat (sep : string) :
  sep <> "" ->
  forall text skip, String.concat sep (split_go sep skip text) = drop_str skip text.
Proof.
  intros Hsep. induction text as [|c text IH]; intros skip.
  - destruct skip; reflexivity.
  - cbn [split_go]. destruct skip as [|k]; [|apply IH].
    destruct (String.prefix sep (String c text)) eqn:Hprefix.
    + rewrite concat_cons by apply split_go_nonempty. rewrite IH.
      etransitivity; [|symmetry; apply (prefix_drop _ _ Hprefix)].
      destruct sep as [|a sep]; [congruence|].
      cbn. rewrite Nat.sub_0_r. reflexivity.
    + specialize (IH 0). pose proof (split_go_nonempty sep text 0) as Hne.
      destruct (split_go sep 0 text) as [|piece more]; [congruence|].
      cbn [drop_str] in *. rewrite <- IH.
      destruct more; reflexivity.
Qed.

Lemma pieces_concat (sep text : string) : String.concat sep (pieces sep text) = text.
Proof.
  unfold pieces. destruct (String.eqb_spec sep "") as [->|Hsep].
  - apply chars_concat.
  - apply (split_go_concat sep Hsep text 0).
Qed.

Lemma pieces_nonempty (sep text : string) : text <> "" -> pieces sep text <> [].
Proof.
  intros Htext. unfold pieces. destruct (String.eqb sep "").
  - destruct text; [congruence|discriminate].
  - apply split_go_nonempty.
Qed.

(** ** The size bound *)

Section Assemble.

Variable chunk_size : nat.
Variable sep : string.
Variable resplit : string -> list string.

Local Abbreviation within := (fun c : string => String.length c <= chunk_size).
Local Abbreviation pass := (assemble chunk_size sep resplit).

(** The merge never builds a chunk above the bound, and what it emits is
    within the bound when what the re-split emits is. *)
Lemma assemble_bounded (parts : list string) :
  (forall p, p ∈ parts -> chunk_size < String.length p -> Forall within (resplit p)) ->
  forall current,
    Forall within (flush current) ->
    Forall within (pass current parts).
Proof.
  induction parts as [|p rest IH]; intros Hresplit current Hcurrent; cbn [assemble].
  - exact Hcurrent.
  - assert (Hrest : forall q, q ∈ rest -> chunk_size < String.length q ->
                              Forall within (resplit q)).
    { intros q Hq. apply Hresplit. right. exact Hq. }
    destruct (Nat.ltb_spec chunk_size (String.length p)) as [Hbig|Hsmall].
    + rewrite !Forall_app. repeat split.
      * exact Hcurrent.
      * apply Hresplit; [left|exact Hbig].
      * apply IH; [exact Hrest|constructor].
    + destruct current as [chunk|].
      * destruct (Nat.leb_spec (String.length chunk + String.length sep + String.length p)
                    chunk_size) as [Hfits|Hfull].
        -- apply IH; [exact Hrest|]. repeat constructor.
           rewrite !length_append. lia.
        -- constructor; [inversion Hcurrent; assumption|].
           apply IH; [exact Hrest|]. repeat constructor. exact Hsmall.
      * apply IH; [exact Hrest|]. repeat constructor. exact Hsmall.
Qed.

(** Pieces that fit together are merged back into one chunk. *)
Lemma assemble_fits (parts : list string) :
  forall chunk,
    String.length (String.concat sep (chunk :: parts)) <= chunk_size ->
    pass (Some chunk) parts = [String.concat sep (chunk :: parts)].
Proof.
  induction parts as [|p rest IH]; intros chunk Hlen; [reflexivity|].
  cbn [assemble].
  pose proof (concat_head_length sep p rest) as Hp.
  rewrite concat_cons in Hlen by discriminate. rewrite !length_append in Hlen.
  destruct (Nat.ltb_spec chunk_size (String.length p)) as [Hbig|_]; [lia|].
  destruct (Nat.leb_spec (String.length chunk + String.length sep + String.length p)
              chunk_size) as [_|Hfull]; [|lia].
  rewrite concat_merge. apply IH. rewrite <- concat_merge.
  rewrite concat_cons by discriminate. rewrite !length_append. lia.
Qed.

(** ** Reconstruction *)

Lemma weave_app (front back gaps gaps' : list string) (g : string) :
  length front = S (length gaps) ->
  weave (front ++ back) (gaps ++ g :: gaps') = weave front gaps +:+ g +:+ weave back gaps'.
Proof.
  revert gaps. induction front as [|c front IH]; intros gaps Hlen; [discriminate Hlen|].
  destruct gaps as [|g0 gaps]; cbn [app weave].
  - destruct front; [|discriminate Hlen]. cbn [app weave].
    rewrite append_empty_r. reflexivity.
  - rewrite IH by (cbn in Hlen; lia). rewrite !append_assoc. reflexivity.
Qed.

Lemma rejoins_single (seps : list string) (c : string) : rejoins seps [c] c.
Proof. exists []. repeat split; [constructor|apply append_empty_r]. Qed.

Lemma rejoins_app (seps front back : list string) (a b g : string) :
  g ∈ seps -> front <> [] -> back <> [] ->
  rejoins seps front a -> rejoins seps back b ->
  rejoins seps (front ++ back) (a +:+ g +:+ b).
Proof.
  intros Hg Hfront Hback (ga & Hla & Hfa & Hwa) (gb & Hlb & Hfb & Hwb).
  exists (ga ++ g :: gb). repeat split.
  - rewrite !length_app. cbn [length].
    destruct front; [congruence|]. destruct back; [congruence|]. cbn in *. lia.
  - apply Forall_app. split; [exact Hfa|]. constructor; assumption.
  - rewrite weave_app, Hwa, Hwb; [reflexivity|].
    destruct front; [congruence|]. cbn in *. lia.
Qed.

Lemma rejoins_mono (lower seps chunks : list string) (text : string) :
  lower ⊆ seps -> rejoins lower chunks text -> rejoins seps chunks text.
Proof.
  intros Hsub (gaps & Hlen & Hgaps & Hweave). exists gaps. repeat split; try assumption.
  eapply Forall_impl; [exact Hgaps|]. intros g Hg. apply Hsub, Hg.
Qed.

(** What the pass emits, with the separators it consumed put back, is
    the pieces joined by the separator. *)
Lemma assemble_rejoins (seps : list string) :
  sep ∈ seps ->
  (forall p, chunk_size < String.length p -> rejoins seps (resplit p) p /\ resplit p <> []) ->
  forall parts current,
    flush current ++ parts <> [] ->
    rejoins seps (pass current parts) (String.concat sep (flush current ++ parts)) /\
    pass current parts <> [].
Proof.
  intros Hsep Hresplit.
  induction parts as [|p rest IH]; intros current Hne; cbn [assemble].
  - rewrite app_nil_r in *. destruct current as [chunk|]; [|cbn in Hne; congruence].
    split; [apply rejoins_single|discriminate].
  - destruct (Nat.ltb_spec chunk_size (String.length p)) as [Hbig|Hsmall].
    + destruct (Hresplit p Hbig) as [Hp Hpne].
      assert (Htail : rejoins seps (resplit p ++ pass None rest) (String.concat sep (p :: rest))
                      /\ resplit p ++ pass None rest <> []).
      { split; [|destruct (resplit p); [congruence|discriminate]].
        destruct rest as [|q rest].
        - cbn [assemble flush]. rewrite app_nil_r. exact Hp.
        - destruct (IH None ltac:(discriminate)) as [Hrest Hrestne].
          rewrite concat_cons by discriminate.
          apply rejoins_app; assumption. }
      destruct Htail as [Htail Htailne].
      destruct current as [chunk|]; cbn [flush app]; [|split; assumption].
      split; [|discriminate].
      rewrite concat_cons by discriminate.
      apply (rejoins_app seps [chunk]); try assumption; [discriminate|apply rejoins_single].
    + destruct current as [chunk|]; cbn [flush app].
      * destruct (Nat.leb_spec (String.length chunk + String.length sep + String.length p)
                    chunk_size) as [Hfits|Hfull].
        -- rewrite concat_merge. apply (IH (Some (chunk +:+ sep +:+ p))). discriminate.
        -- split; [|discriminate].
           destruct (IH (Some p) ltac:(discriminate)) as [Hrest Hrestne].
           rewrite concat_cons by discriminate.
           apply (rejoins_app seps [chunk]); try assumption; [discriminate|apply rejoins_single].
      * apply (IH (Some p)). discriminate.
Qed.

End Assemble.

(** ** The recursion over the separators *)

(** With the empty separator in the list, no unit is indivisible. *)
Lemma split_rec_bounded (chunk_size : nat) :
  1 <= chunk_size ->
  forall seps, "" ∈ seps ->
  forall text, Forall (fun c => String.length c <= chunk_size) (split_rec chunk_size seps text).
Proof.
  intros Hpos. induction seps as [|sep lower IH]; intros Hin text.
  - inversion Hin.
  - cbn [split_rec]. apply assemble_bounded; [|constructor].
    intros p Hp Hbig. unfold pieces in Hp.
    destruct (String.eqb_spec sep "") as [->|Hsep].
    + apply chars_length in Hp. lia.
    + apply IH. apply elem_of_cons in Hin as [Heq|Hin]; [congruence|exact Hin].
Qed.

(** A text within the bound is not split, whatever the separators. *)
Lemma split_rec_small (chunk_size : nat) (seps : list string) (text : string) :
  text <> "" -> String.length text <= chunk_size ->
  split_rec chunk_size seps text = [text].
Proof.
  intros Htext Hlen. destruct seps as [|sep lower]; [reflexivity|]. cbn [split_rec].
  pose proof (pieces_concat sep text) as Hconcat.
  pose proof (pieces_nonempty sep text Htext) as Hne.
  destruct (pieces sep text) as [|p ps]; [congruence|]. cbn [assemble].
  pose proof (concat_head_length sep p ps) as Hp. rewrite Hconcat in Hp.
  destruct (Nat.ltb_spec chunk_size (String.length p)) as [Hbig|_]; [lia|].
  rewrite assemble_fits; rewrite Hconcat; [reflexivity|exact Hlen].
Qed.

Lemma split_rec_rejoins (chunk_size : nat) :
  forall seps text, text <> "" ->
    rejoins seps (split_rec chunk_size seps text) text /\
    split_rec chunk_size seps text <> [].
Proof.
  induction seps as [|sep lower IH]; intros text Htext; cbn [split_rec].
  - split; [apply rejoins_single|discriminate].
  - rewrite <- (pieces_concat sep text) at 2.
    apply (assemble_rejoins chunk_size sep (split_rec chunk_size lower) (sep :: lower)).
    + left.
    + intros p Hbig. destruct (IH p) as [Hp Hpne].
      * intros ->. cbn in Hbig. lia.
      * split; [|exact Hpne]. eapply rejoins_mono; [|exact Hp].
        intros g Hg. right. exact Hg.
    + cbn [flush app]. apply pieces_nonempty, Htext.
Qed.

Lemma split_text_small (chunk_size : nat) (seps : list string) (text : string) :
  text <> "" -> String.length text <= chunk_size ->
  split_text chunk_size seps text = [text].
Proof.
  intros Htext Hlen. unfold split_text.
  destruct (String.eqb_spec text ""); [congruence|].
  apply split_rec_small; assumption.
Qed.

Lemma split_text_bounded (text : string) :
  Forall (fun c => String.length c <= 4000) (split_text 4000 separators text).
Proof.
  unfold split_text. destruct (String.eqb text ""); [constructor|].
  apply split_rec_bounded; [lia|].
  unfold separators. rewrite !elem_of_cons. tauto.
Qed.

(** C4: every chunk the splitter configured with [chunk_size] 4000 and
    the separators of the script produces has at most 4000 characters,
    for every text; so has every chunk [process_document] returns, for
    every file and every answer of the OCR service. *)
Theorem chunks_within_4000 :
  (forall text : string,
     Forall (fun c => String.length c <= 4000) (split_text 4000 separators text)) /\
  (forall detect analyze (file_path file_type : option string),
     Forall (fun c => String.length c <= 4000)
       (fst (process_document detect analyze RecursiveCharacterTextSplitter
               file_path file_type))).
Proof.
  split; [exact split_text_bounded|].
  intros detect analyze file_path file_type.
  assert (Hsplit : forall extracted,
             Forall (fun c => String.length c <= 4000)
               (fst (split_extracted RecursiveCharacterTextSplitter extracted))).
  { intros [text|]; cbn [split_extracted]; [|constructor].
    destruct (truthy (Some text)); [|constructor].
    cbn. apply split_text_bounded. }
  unfold process_document.
  destruct file_path as [path|], file_type as [type|]; try constructor.
  destruct (truthy (Some path) && truthy (Some type)); [|constructor].
  destruct (str_in type ["jpg"; "jpeg"; "tiff"]).
  - destruct (extract_text_from_image detect path) as [extracted log].
    specialize (Hsplit extracted).
    destruct (split_extracted RecursiveCharacterTextSplitter extracted). exact Hsplit.
  - destruct (String.eqb type "pdf"); [|constructor].
    destruct (extract_text_from_pdf analyze path) as [extracted log].
    specialize (Hsplit extracted).
    destruct (split_extracted RecursiveCharacterTextSplitter extracted). exact Hsplit.
Qed.

(** C5: for every text, every separator list and every maximum size, the
    chunks of the splitter, with separators of the list put back at the
    chunk boundaries, give the text again. *)
Theorem split_text_lossless (chunk_size : nat) (seps : list string) (text : string) :
  rejoins seps (split_text chunk_size seps text) text.
Proof.
  unfold split_text. destruct (String.eqb_spec text "") as [->|Htext].
  - exists []. repeat split. constructor.
  - apply split_rec_rejoins, Htext.
Qed.

(** C6: with [chunk_size] 4000 the empty text yields no chunk, every
    non-empty text of at most 4000 characters yields exactly one chunk,
    the text itself, and so does "A. B. C." (also with the separators of
    scenario 2); the same holds of what [process_document] does with an
    extracted text. *)
Theorem small_text_one_chunk :
  split_text 4000 separators "" = [] /\
  (forall text : string,
     text <> "" -> String.length text <= 4000 ->
     split_text 4000 separators text = [text]) /\
  split_text 4000 separators "A. B. C." = ["A. B. C."] /\
  split_text 4000 ["."; " "; ""] "A. B. C." = ["A. B. C."] /\
  fst (split_extracted RecursiveCharacterTextSplitter (Some "")) = [] /\
  (forall text : string,
     text <> "" -> String.length text <= 4000 ->
     fst (split_extracted RecursiveCharacterTextSplitter (Some text)) = [text]).
Proof.
  split; [reflexivity|]. split; [intros; apply split_text_small; assumption|].
  split; [vm_compute; reflexivity|]. split; [vm_compute; reflexivity|].
  split; [reflexivity|].
  intros text Htext Hlen. unfold split_extracted, truthy.
  apply String.eqb_neq in Htext. rewrite Htext. cbn [negb].
  unfold RecursiveCharacterTextSplitter, ret. cbn [fst].
  apply split_text_small; [apply String.eqb_neq, Htext|exact Hlen].
Qed.

End SplitterFacts.

Lemma small_text_one_chunk_witness :
  Splitter.split_text 4000 separators "BP 120/80." = ["BP 120/80."].
Proof.
  apply (proj1 (proj2 SplitterFacts.small_text_one_chunk)).
  - discriminate.
  - apply Nat.leb_le. vm_compute. reflexivity.
Defined.

(** * Further properties of the summarizer *)

Section SummarizerMore.

Context {World : Type}.
Variable json_dumps : pyval -> string.
Variable BEDROCK_MODEL : option string.
Variable invoke_model : string -> option string -> World -> result pyval * World.

Local Abbreviation loop := (for_chunks json_dumps BEDROCK_MODEL invoke_model).
Local Abbreviation step := (summarize_chunk json_dumps BEDROCK_MODEL invoke_model).
Local Abbreviation body_of := (request_body json_dumps).
Local Abbreviation calls := (answered json_dumps BEDROCK_MODEL invoke_model).
Local Abbreviation summarize := (generate_summary json_dumps BEDROCK_MODEL invoke_model).

(** X1: the step of a chunk yields a text exactly when the response body
    is an object whose ["content"] is a list that starts with an object
    holding a ["text"] entry; the parts after the first play no part. *)
Theorem first_text_succeeds_iff (body text : pyval) :
  first_text body = inr text <->
  exists kvs part rest,
    body = PyDict kvs /\
    dict_lookup "content" kvs = Some (PyList (PyDict part :: rest)) /\
    dict_lookup "text" part = Some text.
Proof.
  split.
  - unfold first_text. destruct body as [| | | |l|kvs]; try discriminate.
    cbn [py_get bind ret].
    destruct (dict_lookup "content" kvs) as [content|] eqn:Hcontent; [|cbn; discriminate].
    cbn [default]. destruct content as [| | |s|parts|d]; try (cbn; discriminate).
    + destruct s; cbn; discriminate.
    + destruct parts as [|first rest]; [cbn; discriminate|].
      destruct first as [| | | | |part]; try (cbn; discriminate).
      cbn. destruct (dict_lookup "text" part) as [t|] eqn:Htext; [|discriminate].
      intros [= <-]. exists kvs, part, rest. repeat split; assumption.
  - intros (kvs & part & rest & -> & Hcontent & Htext).
    unfold first_text. cbn [py_get bind ret]. rewrite Hcontent.
    cbn. rewrite Htext. reflexivity.
Qed.

(** The loop ends normally with the log it was given, or early with one
    more [st.error] box. *)
Lemma for_chunks_log documents :
  forall summaries w log,
    match loop documents summaries w log with
    | (Some _, _, log') => log' = log
    | (None, _, log') => exists text cause, log' = log ++ [StError text cause]
    end.
Proof.
  induction documents as [|chunk rest IH]; intros summaries w log; cbn [for_chunks].
  - reflexivity.
  - destruct (step chunk w) as [[e|text] w1].
    + destruct e; cbn [inner_handler]; eexists _, _; reflexivity.
    + apply IH.
Qed.

(** How a run of [generate_summary] ends. *)
Lemma generate_summary_outcome (documents : list string) (w : World) :
  match summarize documents w with
  | (Some _, _, log) => log = []
  | (None, _, log) => exists text cause, log = [StError text cause]
  end.
Proof.
  unfold generate_summary.
  pose proof (for_chunks_log documents [] w []) as Hloop.
  destruct (loop documents [] w []) as [[[summaries|] w1] log1].
  - subst log1. destruct (py_join " " summaries); [eexists _, _|]; reflexivity.
  - exact Hloop.
Qed.

(** X2: a run of [generate_summary] that returns a summary shows no
    error box, and a run that returns [None] shows exactly one. *)
Theorem generate_summary_reports (documents : list string) (w : World) :
  match generate_summary json_dumps BEDROCK_MODEL invoke_model documents w with
  | (Some _, _, log) => log = []
  | (None, _, log) => exists text cause, log = [StError text cause]
  end.
Proof. exact (generate_summary_outcome documents w). Qed.

Lemma py_strs_non_string (items : list pyval) (item : pyval) :
  item ∈ items -> (forall s, item <> PyStr s) -> py_strs items = inl TypeError.
Proof.
  intros Hin Hnot. induction items as [|v items IH]; [inversion Hin|].
  apply elem_of_cons in Hin as [<-|Hin].
  - destruct item; try reflexivity. exfalso. eapply Hnot. reflexivity.
  - destruct v; try reflexivity. cbn [py_strs]. rewrite (IH Hin). reflexivity.
Qed.

(** X3: when every call is answered but the text of some first part is
    not a string, all the calls are made, the join raises [TypeError], and
    [generate_summary] returns [None] after reporting "Error generating
    summary". *)
Theorem generate_summary_non_string documents w responses w' texts item :
  calls documents w responses w' ->
  texts_of responses texts ->
  item ∈ texts ->
  (forall s, item <> PyStr s) ->
  summarize documents w
  = (None, w', [StError "Error generating summary: " (Some TypeError)]).
Proof.
  intros Hcalls Htexts Hin Hnot. unfold generate_summary.
  rewrite (for_chunks_answered _ _ _ _ _ _ _ Hcalls texts [] [] Htexts).
  cbn [app]. unfold py_join. rewrite (py_strs_non_string _ _ Hin Hnot). reflexivity.
Qed.

(** X4: when the call for a chunk raises [ClientError], the only message
    shown is "Amazon Bedrock error: " followed by the message of the
    service, the service is left in the state of that call, and the
    outcome is the same whatever chunks come after. *)
Theorem generate_summary_client_error before w responses w1 texts chunk msg w2 after :
  calls before w responses w1 ->
  texts_of responses texts ->
  invoke_model (body_of chunk) BEDROCK_MODEL w1 = (inl (ClientError msg), w2) ->
  summarize (before ++ chunk :: after) w
  = (None, w2, [StError ("Amazon Bedrock error: " +:+ msg) None]) /\
  summarize (before ++ chunk :: after) w = summarize (before ++ [chunk]) w.
Proof.
  intros Hcalls Htexts Hcall.
  pose proof (step_raises _ _ _ _ _ _ _ Hcall) as Hstep.
  unfold generate_summary.
  rewrite !(for_chunks_aborts _ _ _ _ _ _ _ _ _ _ _ _ Hcalls Htexts Hstep [] []).
  split; reflexivity.
Qed.

Lemma answered_app a b w ra w1 rb w2 :
  calls a w ra w1 -> calls b w1 rb w2 -> calls (a ++ b) w (ra ++ rb) w2.
Proof.
  induction 1 as [w|chunk rest w response w' responses w'' Hcall Hrest IH]; intros Hb.
  - exact Hb.
  - cbn [app]. econstructor; [exact Hcall|]. apply IH, Hb.
Qed.

Lemma concat_app (sep : string) (xs ys : list string) :
  xs <> [] -> ys <> [] ->
  String.concat sep (xs ++ ys) = String.concat sep xs +:+ sep +:+ String.concat sep ys.
Proof.
  intros Hxs Hys. induction xs as [|x xs IH]; [congruence|].
  destruct xs as [|x' xs].
  - cbn [app]. destruct ys; [congruence|]. reflexivity.
  - change ((x :: x' :: xs) ++ ys) with (x :: (x' :: xs) ++ ys).
    change (String.concat sep (x :: (x' :: xs) ++ ys))
      with (x +:+ sep +:+ String.concat sep ((x' :: xs) ++ ys)).
    rewrite IH by discriminate.
    change (String.concat sep (x :: x' :: xs))
      with (x +:+ sep +:+ String.concat sep (x' :: xs)).
    rewrite !append_assoc. reflexivity.
Qed.

(** X5: summaries compose: if a first batch of chunks is summarized to
    [s1] and, from the state the service is then in, a second batch to
    [s2], the two batches in one call are summarized to [s1], one space,
    [s2]. *)
Theorem generate_summary_app a b w s1 w1 s2 w2 :
  a <> [] -> b <> [] ->
  generate_summary json_dumps BEDROCK_MODEL invoke_model a w = (Some s1, w1, []) ->
  generate_summary json_dumps BEDROCK_MODEL invoke_model b w1 = (Some s2, w2, []) ->
  generate_summary json_dumps BEDROCK_MODEL invoke_model (a ++ b) w
  = (Some (s1 +:+ " " +:+ s2), w2, []).
Proof.
  intros Ha Hb H1 H2.
  assert (Hinv : forall docs v s v',
             summarize docs v = (Some s, v', []) ->
             exists responses ss,
               calls docs v responses v' /\ texts_of responses (map PyStr ss) /\
               s = String.concat " " ss).
  { intros docs v s v' H. unfold generate_summary in H.
    destruct (loop docs [] v []) as [[[out|] v1] log1] eqn:Hloop; [|discriminate H].
    unfold py_join in H. destruct (py_strs out) as [e|ss] eqn:Hstrs; [discriminate H|].
    cbn in H. injection H as <- <- ->.
    destruct (for_chunks_Some _ _ _ _ _ _ _ _ _ _ Hloop)
      as (responses & texts & Hc & Ht & -> & _).
    apply py_strs_inv in Hstrs. cbn [app] in Hstrs. subst texts.
    exists responses, ss. repeat split; assumption. }
  destruct (Hinv _ _ _ _ H1) as (ra & ssa & Hca & Hta & ->).
  destruct (Hinv _ _ _ _ H2) as (rb & ssb & Hcb & Htb & ->).
  assert (Hlen : forall docs v rs v' (ss : list string),
             calls docs v rs v' -> texts_of rs (map PyStr ss) -> docs <> [] -> ss <> []).
  { intros docs v rs v' ss Hc Ht Hne ->. inversion Ht; subst. inversion Hc; subst.
    congruence. }
  unfold generate_summary.
  rewrite (for_chunks_answered _ _ _ _ _ _ _ (answered_app _ _ _ _ _ _ _ Hca Hcb)
             (map PyStr (ssa ++ ssb)) [] []).
  - cbn [app]. unfold py_join. rewrite py_strs_map. cbn [bind ret].
    rewrite concat_app; [reflexivity| |].
    + exact (Hlen _ _ _ _ _ Hca Hta Ha).
    + exact (Hlen _ _ _ _ _ Hcb Htb Hb).
  - rewrite map_app. apply Forall2_app; assumption.
Qed.

Lemma recording_step chunk w sent :
  summarize_chunk json_dumps BEDROCK_MODEL (recording invoke_model) chunk (w, sent)
  = (fst (step chunk w), (snd (step chunk w), sent ++ [body_of chunk])).
Proof.
  unfold summarize_chunk, recording. cbn [fst snd].
  destruct (invoke_model (body_of chunk) BEDROCK_MODEL w) as [r w1]. reflexivity.
Qed.

Lemma for_chunks_recording documents :
  forall summaries w sent log,
    for_chunks json_dumps BEDROCK_MODEL (recording invoke_model) documents summaries
      (w, sent) log
    = let '(out, w', log') := loop documents summaries w log in
      (out,
       (w', sent ++ map body_of
                      (take (calls_made json_dumps BEDROCK_MODEL invoke_model documents w)
                            documents)),
       log').
Proof.
  induction documents as [|chunk rest IH]; intros summaries w sent log.
  - cbn. rewrite app_nil_r. reflexivity.
  - cbn [for_chunks calls_made]. rewrite recording_step.
    destruct (step chunk w) as [[e|text] w1]; cbn [fst snd].
    + reflexivity.
    + rewrite IH. destruct (loop rest (summaries ++ [text]) w1 log) as [[out w'] log'].
      cbn [take map]. rewrite <- app_assoc. reflexivity.
Qed.

Lemma calls_made_le documents :
  forall w, calls_made json_dumps BEDROCK_MODEL invoke_model documents w <= length documents.
Proof.
  induction documents as [|chunk rest IH]; intros w; cbn [calls_made length]; [lia|].
  destruct (step chunk w) as [[e|text] w1]; [lia|]. specialize (IH w1). lia.
Qed.

Lemma calls_made_all documents :
  forall summaries w log out w' log',
    loop documents summaries w log = (Some out, w', log') ->
    calls_made json_dumps BEDROCK_MODEL invoke_model documents w = length documents.
Proof.
  induction documents as [|chunk rest IH]; intros summaries w log out w' log' H;
    cbn [calls_made length for_chunks] in *; [reflexivity|].
  destruct (step chunk w) as [[e|text] w1]; [discriminate H|].
  f_equal. eapply IH, H.
Qed.

(** X6: the requests go out in chunk order, one per chunk and each built
    from its chunk, and none goes out after the first failing step: the
    bodies the service receives are those of a prefix of the chunks, the
    whole sequence when a summary is returned; observing the calls does
    not change the outcome. *)
Theorem generate_summary_requests (documents : list string) (w : World) :
  let n := calls_made json_dumps BEDROCK_MODEL invoke_model documents w in
  let '(summary, w', log) := summarize documents w in
  generate_summary json_dumps BEDROCK_MODEL (recording invoke_model) documents (w, [])
  = (summary, (w', map body_of (take n documents)), log) /\
  n <= length documents /\
  (is_Some summary -> n = length documents).
Proof.
  cbn zeta. unfold generate_summary.
  rewrite for_chunks_recording.
  pose proof (calls_made_le documents w) as Hle.
  pose proof (calls_made_all documents [] w []) as Hall.
  destruct (loop documents [] w []) as [[[out|] w1] log1].
  - specialize (Hall _ _ _ eq_refl).
    destruct (py_join " " out) as [e|summary]; cbn [app];
      (split; [reflexivity|split; [exact Hle|intros _; exact Hall]]).
  - cbn [app]. split; [reflexivity|split; [exact Hle|intros [? [=]]]].
Qed.

End SummarizerMore.

Lemma first_text_succeeds_iff_witness : first_text (reply "S1") = inr (PyStr "S1").
Proof.
  apply (proj2 (first_text_succeeds_iff (reply "S1") (PyStr "S1"))).
  exists [("role", PyStr "assistant");
          ("content", PyList [PyDict [("type", PyStr "text"); ("text", PyStr "S1")]])],
         [("type", PyStr "text"); ("text", PyStr "S1")], [].
  repeat split; reflexivity.
Defined.

Lemma generate_summary_non_string_witness :
  generate_summary keys_dumps (Some "model") scripted_model ["one"; "two"]
    [inr (reply "S1"); inr (PyDict [("content", PyList [PyDict [("text", PyNum 7)]])])]
  = (None, [], [StError "Error generating summary: " (Some TypeError)]).
Proof.
  apply (generate_summary_non_string keys_dumps (Some "model") scripted_model
           ["one"; "two"]
           [inr (reply "S1"); inr (PyDict [("content", PyList [PyDict [("text", PyNum 7)]])])]
           [reply "S1"; PyDict [("content", PyList [PyDict [("text", PyNum 7)]])]]
           [] [PyStr "S1"; PyNum 7] (PyNum 7)).
  - apply answered_cons
      with (w' := [inr (PyDict [("content", PyList [PyDict [("text", PyNum 7)]])])]);
      [reflexivity|].
    apply answered_cons with (w' := []); [reflexivity|]. apply answered_nil.
  - repeat constructor.
  - right. left.
  - discriminate.
Defined.

Lemma generate_summary_client_error_witness :
  generate_summary keys_dumps (Some "model") scripted_model (["one"] ++ "two" :: ["three"])
    [inr (reply "S1"); inl (ClientError "throttled"); inr (reply "S3")]
  = (None, [inr (reply "S3")], [StError ("Amazon Bedrock error: " +:+ "throttled") None]) /\
  generate_summary keys_dumps (Some "model") scripted_model (["one"] ++ "two" :: ["three"])
    [inr (reply "S1"); inl (ClientError "throttled"); inr (reply "S3")]
  = generate_summary keys_dumps (Some "model") scripted_model (["one"] ++ ["two"])
      [inr (reply "S1"); inl (ClientError "throttled"); inr (reply "S3")].
Proof.
  apply (generate_summary_client_error keys_dumps (Some "model") scripted_model
           ["one"] [inr (reply "S1"); inl (ClientError "throttled"); inr (reply "S3")]
           [reply "S1"] [inl (ClientError "throttled"); inr (reply "S3")]
           [PyStr "S1"] "two" "throttled" [inr (reply "S3")] ["three"]).
  - apply answered_cons with (w' := [inl (ClientError "throttled"); inr (reply "S3")]);
      [reflexivity|].
    apply answered_nil.
  - repeat constructor.
  - reflexivity.
Defined.

Lemma generate_summary_app_witness :
  generate_summary keys_dumps (Some "model") scripted_model (["one"] ++ ["two"])
    [inr (reply "S1"); inr (reply "S2")]
  = (Some ("S1" +:+ " " +:+ "S2"), [], []).
Proof.
  apply (generate_summary_app keys_dumps (Some "model") scripted_model
           ["one"] ["two"] [inr (reply "S1"); inr (reply "S2")]
           "S1" [inr (reply "S2")] "S2" []).
  - discriminate.
  - discriminate.
  - reflexivity.
  - reflexivity.
Defined.

Lemma generate_summary_requests_witness :
  generate_summary keys_dumps (Some "model") (recording scripted_model)
    ["one"; "two"; "three"]
    ([inr (reply "S1"); inl (OtherError "timeout"); inr (reply "S3")], [])
  = (None,
     ([inr (reply "S3")],
      map (request_body keys_dumps) (take 2 ["one"; "two"; "three"])),
     [StError "Error invoking the Claude model: " (Some (OtherError "timeout"))]) /\
  2 <= length ["one"; "two"; "three"] /\
  (is_Some (@None string) -> 2 = length ["one"; "two"; "three"]).
Proof.
  exact (generate_summary_requests keys_dumps (Some "model") scripted_model
           ["one"; "two"; "three"]
           [inr (reply "S1"); inl (OtherError "timeout"); inr (reply "S3")]).
Defined.

(** * Further properties of extraction and chunking *)

Section PipelineMore.

Variable detect_document_text : string -> result (list Block).
Variable analyze_document : string -> list string -> result (list Block).
Variable RecursiveCharacterTextSplitter :
  nat -> list string -> nat -> string -> result (list string).

Local Abbreviation from_image := (extract_text_from_image detect_document_text).
Local Abbreviation from_pdf := (extract_text_from_pdf analyze_document).
Local Abbreviation split := (RecursiveCharacterTextSplitter 4000 separators 0).
Local Abbreviation process :=
  (process_document detect_document_text analyze_document RecursiveCharacterTextSplitter).

(** How [process_document] runs on a path and a type that are both
    non-empty. *)
Lemma process_image path type :
  path <> "" -> str_in type ["jpg"; "jpeg"; "tiff"] = true ->
  process (Some path) (Some type)
  = (fst (split_extracted RecursiveCharacterTextSplitter (fst (from_image path))),
     snd (from_image path)
       ++ snd (split_extracted RecursiveCharacterTextSplitter (fst (from_image path)))).
Proof.
  intros Hpath Hin. unfold process_document, truthy.
  apply String.eqb_neq in Hpath. rewrite Hpath.
  rewrite (str_in_nonempty _ _ Hin) by (repeat constructor; discriminate).
  cbn [negb andb]. rewrite Hin.
  destruct (from_image path) as [extracted log]. cbn [fst snd].
  destruct (split_extracted RecursiveCharacterTextSplitter extracted). reflexivity.
Qed.

Lemma process_pdf path :
  path <> "" ->
  process (Some path) (Some "pdf")
  = (fst (split_extracted RecursiveCharacterTextSplitter (fst (from_pdf path))),
     snd (from_pdf path)
       ++ snd (split_extracted RecursiveCharacterTextSplitter (fst (from_pdf path)))).
Proof.
  intros Hpath. unfold process_document, truthy.
  apply String.eqb_neq in Hpath. rewrite Hpath.
  change (str_in "pdf" ["jpg"; "jpeg"; "tiff"]) with false.
  change (String.eqb "pdf" "") with false.
  change (String.eqb "pdf" "pdf") with true. cbn [negb andb].
  destruct (from_pdf path) as [extracted log]. cbn [fst snd].
  destruct (split_extracted RecursiveCharacterTextSplitter extracted). reflexivity.
Qed.

(** X7: a file type other than jpg, jpeg, tiff and pdf is refused with
    "Unsupported file format." and no chunk, whatever the services would
    answer: neither Textract nor the splitter has a say. *)
Theorem unsupported_format path type :
  path <> "" -> type <> "" ->
  str_in type ["jpg"; "jpeg"; "tiff"] = false -> type <> "pdf" ->
  process (Some path) (Some type) = ([], [StError "Unsupported file format." None]).
Proof.
  intros Hpath Htype Himage Hpdf. unfold process_document, truthy.
  apply String.eqb_neq in Hpath, Htype, Hpdf. rewrite Hpath, Htype, Himage, Hpdf.
  reflexivity.
Qed.

(** X8: a missing or empty path, or a missing or empty type, is refused
    with "Invalid file path or file type." and no chunk, whatever the
    services would answer. *)
Theorem invalid_path_or_type (file_path file_type : option string) :
  truthy file_path = false \/ truthy file_type = false ->
  process file_path file_type = ([], [StError "Invalid file path or file type." None]).
Proof.
  intros H. unfold process_document.
  destruct file_path as [path|], file_type as [type|]; try reflexivity.
  destruct H as [-> | ->]; [reflexivity|].
  rewrite andb_false_r. reflexivity.
Qed.

(** X9: the file type selects the Textract operation: for jpg, jpeg and
    tiff the outcome does not depend on [analyze_document], for pdf it
    does not depend on [detect_document_text]. *)
Theorem type_selects_operation (file_path : option string) (type : string)
    (detect' : string -> result (list Block))
    (analyze' : string -> list string -> result (list Block)) :
  (str_in type ["jpg"; "jpeg"; "tiff"] = true ->
   process file_path (Some type)
   = process_document detect_document_text analyze' RecursiveCharacterTextSplitter
       file_path (Some type)) /\
  (type = "pdf" ->
   process file_path (Some type)
   = process_document detect' analyze_document RecursiveCharacterTextSplitter
       file_path (Some type)).
Proof.
  split.
  - intros Hin. unfold process_document. rewrite Hin. reflexivity.
  - intros ->. unfold process_document.
    change (str_in "pdf" ["jpg"; "jpeg"; "tiff"]) with false. reflexivity.
Qed.

(** X10: when Textract answers with a [ClientError], the user is shown
    two error boxes, the message of the service and then "Failed to
    extract text from the document.", and no chunk is returned. *)
Theorem textract_client_error path type msg :
  path <> "" ->
  (str_in type ["jpg"; "jpeg"; "tiff"] = true /\
   detect_document_text path = inl (ClientError msg)) \/
  (type = "pdf" /\ analyze_document path ["TABLES"; "FORMS"] = inl (ClientError msg)) ->
  process (Some path) (Some type)
  = ([], [StError ("Amazon Textract error: " +:+ msg) None;
          StError "Failed to extract text from the document." None]).
Proof.
  intros Hpath [[Hin Hcall]|[-> Hcall]].
  - rewrite (process_image _ _ Hpath Hin). unfold extract_text_from_image.
    rewrite Hcall. reflexivity.
  - rewrite (process_pdf _ Hpath). unfold extract_text_from_pdf.
    rewrite Hcall. reflexivity.
Qed.

Lemma image_lines_app (front back : list Block) :
  forall text,
    image_lines (front ++ back) text
    = (do text' <- image_lines front text; image_lines back text').
Proof.
  induction front as [|b front IH]; intros text; cbn [app image_lines]; [reflexivity|].
  destruct (String.eqb (BlockType b) "LINE"); [|apply IH].
  destruct (Text b); [apply IH|reflexivity].
Qed.

(** X11: one [LINE] block without a ["Text"] entry fails the whole
    extraction: the lines read before it are dropped, both extractors
    return nothing and report the [KeyError]. *)
Theorem line_without_text image_path pdf_path before block after :
  detect_document_text image_path = inr (before ++ block :: after) ->
  analyze_document pdf_path ["TABLES"; "FORMS"] = inr (before ++ block :: after) ->
  lines_have_text before ->
  is_line block = true -> Text block = None ->
  from_image image_path
  = (None, [StError "Error extracting text: " (Some (KeyError "Text"))]) /\
  from_pdf pdf_path
  = (None, [StError "Error extracting text from PDF: " (Some (KeyError "Text"))]).
Proof.
  intros Hdetect Hanalyze Hbefore Hline Htext.
  assert (Hloop : image_lines (before ++ block :: after) "" = inl (KeyError "Text")).
  { rewrite image_lines_app, (image_lines_concat _ Hbefore). cbn [bind image_lines].
    unfold is_line in Hline. rewrite Hline, Htext. reflexivity. }
  unfold extract_text_from_image, extract_text_from_pdf.
  rewrite Hdetect, Hanalyze. cbn [bind].
  rewrite <- (image_pdf_lines (before ++ block :: after) ""), Hloop.
  split; reflexivity.
Qed.

Lemma line_concat_empty (blocks : list Block) :
  line_concat blocks = "" <-> Forall (fun b => is_line b = false) blocks.
Proof.
  induction blocks as [|b blocks IH].
  - split; [constructor|reflexivity].
  - rewrite line_concat_cons. destruct (is_line b) eqn:Hline.
    + split.
      * intros H. apply (f_equal String.length) in H.
        rewrite !length_append in H. cbn in H. lia.
      * intros H. inversion H; congruence.
    + rewrite IH. split.
      * intros H. constructor; assumption.
      * intros H. inversion H; assumption.
Qed.

(** X12: on a response whose [LINE] blocks carry their text, the
    extracted text is empty exactly when the response has no [LINE]
    block: a line always contributes its newline, even when its text is
    empty. *)
Theorem empty_text_iff_no_line path blocks :
  detect_document_text path = inr blocks ->
  lines_have_text blocks ->
  (fst (from_image path) = Some "" <-> Forall (fun b => is_line b = false) blocks).
Proof.
  intros Hdetect Hwf. unfold extract_text_from_image. rewrite Hdetect. cbn [bind].
  rewrite (image_lines_concat _ Hwf). cbn [fst String.append].
  rewrite <- line_concat_empty. split; [intros [= H]; exact H|intros ->; reflexivity].
Qed.

Lemma split_extracted_text text :
  text <> "" ->
  split_extracted RecursiveCharacterTextSplitter (Some text)
  = match split text with
    | inr texts => (texts, [SplitText text])
    | inl e => ([], [SplitText text;
                     StError "Error splitting text into chunks: " (Some e)])
    end.
Proof.
  intros Htext. unfold split_extracted, truthy.
  apply String.eqb_neq in Htext. rewrite Htext. reflexivity.
Qed.

(** The run of [process_document] on a response with lines. *)
Lemma process_lines path type blocks :
  path <> "" ->
  (str_in type ["jpg"; "jpeg"; "tiff"] = true /\ detect_document_text path = inr blocks) \/
  (type = "pdf" /\ analyze_document path ["TABLES"; "FORMS"] = inr blocks) ->
  lines_have_text blocks ->
  Exists (fun b => is_line b = true) blocks ->
  process (Some path) (Some type)
  = match split (line_concat blocks) with
    | inr texts => (texts, [SplitText (line_concat blocks)])
    | inl e => ([], [SplitText (line_concat blocks);
                     StError "Error splitting text into chunks: " (Some e)])
    end.
Proof.
  intros Hpath Hcall Hwf Hline.
  assert (Htext : line_concat blocks <> "").
  { rewrite line_concat_empty. intros Hnone.
    apply Exists_exists in Hline as (b & Hb & Hline).
    rewrite Forall_forall in Hnone. specialize (Hnone b Hb). congruence. }
  destruct Hcall as [[Hin Hcall]|[-> Hcall]].
  - rewrite (process_image _ _ Hpath Hin). unfold extract_text_from_image.
    rewrite Hcall. cbn [bind]. rewrite (image_lines_concat _ Hwf).
    cbn [fst snd String.append app]. rewrite (split_extracted_text _ Htext).
    destruct (split (line_concat blocks)); reflexivity.
  - rewrite (process_pdf _ Hpath). unfold extract_text_from_pdf.
    rewrite Hcall. cbn [bind]. rewrite <- (image_pdf_lines blocks "").
    rewrite (image_lines_concat _ Hwf).
    cbn [fst snd String.append app]. rewrite (split_extracted_text _ Htext).
    destruct (split (line_concat blocks)); reflexivity.
Qed.

(** X13: for a response with at least one [LINE] block, all carrying
    their text, the splitter is called once, on the concatenated lines;
    its chunks are returned as they are, and if it raises the user is
    shown "Error splitting text into chunks" and gets no chunk. *)
Theorem chunks_of_lines path type blocks :
  path <> "" ->
  (str_in type ["jpg"; "jpeg"; "tiff"] = true /\ detect_document_text path = inr blocks) \/
  (type = "pdf" /\ analyze_document path ["TABLES"; "FORMS"] = inr blocks) ->
  lines_have_text blocks ->
  Exists (fun b => is_line b = true) blocks ->
  process (Some path) (Some type)
  = match split (line_concat blocks) with
    | inr texts => (texts, [SplitText (line_concat blocks)])
    | inl e => ([], [SplitText (line_concat blocks);
                     StError "Error splitting text into chunks: " (Some e)])
    end.
Proof. exact (process_lines path type blocks). Qed.

Lemma from_image_outcome path :
  (exists text, from_image path = (Some text, [])) \/
  (exists text cause, from_image path = (None, [StError text cause])).
Proof.
  unfold extract_text_from_image.
  destruct (do blocks <- detect_document_text path; image_lines blocks "") as [e|text].
  - right. destruct e; eexists _, _; reflexivity.
  - left. eexists. reflexivity.
Qed.

Lemma from_pdf_outcome path :
  (exists text, from_pdf path = (Some text, [])) \/
  (exists text cause, from_pdf path = (None, [StError text cause])).
Proof.
  unfold extract_text_from_pdf.
  destruct (do blocks <- analyze_document path ["TABLES"; "FORMS"]; pdf_lines blocks "")
    as [e|text].
  - right. destruct e; eexists _, _; reflexivity.
  - left. eexists. reflexivity.
Qed.

Lemma split_extracted_outcome extracted :
  let '(texts, log) := split_extracted RecursiveCharacterTextSplitter extracted in
  (exists text, extracted = Some text /\ text <> "" /\
                log = [SplitText text] /\ split text = inr texts) \/
  (texts = [] /\ existsb is_error log = true).
Proof.
  destruct extracted as [text|]; [|right; split; reflexivity].
  destruct (String.eqb_spec text "") as [->|Htext]; [right; split; reflexivity|].
  rewrite (split_extracted_text _ Htext).
  destruct (split text) as [e|texts] eqn:Hsplit.
  - right. split; reflexivity.
  - left. exists text. repeat split; assumption.
Qed.

(** How a run of [process_document] ends. *)
Lemma process_document_outcome (file_path file_type : option string) :
  let '(texts, log) := process file_path file_type in
  (exists text, text <> "" /\ log = [SplitText text] /\ split text = inr texts) \/
  (texts = [] /\ existsb is_error log = true).
Proof.
  assert (Hstage : forall extracted log0,
             (exists text, (extracted, log0) = (Some text, [])) \/
             (exists text cause, (extracted, log0) = (None, [StError text cause])) ->
             let '(texts, log') := split_extracted RecursiveCharacterTextSplitter extracted in
             (exists text, text <> "" /\ log0 ++ log' = [SplitText text] /\
                           split text = inr texts) \/
             (texts = [] /\ existsb is_error (log0 ++ log') = true)).
  { intros extracted log0 [(text & [= -> ->])|(text & cause & [= -> ->])].
    - pose proof (split_extracted_outcome (Some text)) as H.
      destruct (split_extracted RecursiveCharacterTextSplitter (Some text)) as [texts log'].
      destruct H as [(t & [= <-] & Ht & -> & Hs)|[-> Herr]].
      + left. exists text. repeat split; assumption.
      + right. split; [reflexivity|exact Herr].
    - right. split; reflexivity. }
  unfold process_document.
  destruct file_path as [path|], file_type as [type|]; try (right; split; reflexivity).
  destruct (truthy (Some path) && truthy (Some type)); [|right; split; reflexivity].
  destruct (str_in type ["jpg"; "jpeg"; "tiff"]).
  - pose proof (from_image_outcome path) as Hout.
    destruct (from_image path) as [extracted log0]. specialize (Hstage extracted log0 Hout).
    destruct (split_extracted RecursiveCharacterTextSplitter extracted). exact Hstage.
  - destruct (String.eqb type "pdf"); [|right; split; reflexivity].
    pose proof (from_pdf_outcome path) as Hout.
    destruct (from_pdf path) as [extracted log0]. specialize (Hstage extracted log0 Hout).
    destruct (split_extracted RecursiveCharacterTextSplitter extracted). exact Hstage.
Qed.

(** X14: every run of [process_document] ends in one of two ways: with
    no error box, the splitter called once on a non-empty text and its
    answer returned; or with no chunk and at least one error box. *)
Theorem chunks_or_error (file_path file_type : option string) :
  let '(texts, log) := process file_path file_type in
  (exists text, text <> "" /\ log = [SplitText text] /\ split text = inr texts) \/
  (texts = [] /\ existsb is_error log = true).
Proof. exact (process_document_outcome file_path file_type). Qed.

End PipelineMore.

(** Scenario 3: a file with the extension docx. *)
Lemma unsupported_format_witness :
  process_document (detect_const two_lines) (analyze_const two_lines)
    Splitter.RecursiveCharacterTextSplitter (Some "notes.docx") (Some "docx")
  = ([], [StError "Unsupported file format." None]).
Proof.
  apply (unsupported_format (detect_const two_lines) (analyze_const two_lines)
           Splitter.RecursiveCharacterTextSplitter "notes.docx" "docx").
  - discriminate.
  - discriminate.
  - reflexivity.
  - discriminate.
Defined.

Lemma invalid_path_or_type_witness :
  process_document (detect_const two_lines) (analyze_const two_lines)
    Splitter.RecursiveCharacterTextSplitter (Some "") (Some "pdf")
  = ([], [StError "Invalid file path or file type." None]).
Proof.
  apply (invalid_path_or_type (detect_const two_lines) (analyze_const two_lines)
           Splitter.RecursiveCharacterTextSplitter (Some "") (Some "pdf")).
  left. reflexivity.
Defined.

Lemma type_selects_operation_witness :
  process_document (detect_const two_lines) (analyze_const [])
    Splitter.RecursiveCharacterTextSplitter (Some "scan.tiff") (Some "tiff")
  = process_document (detect_const two_lines) (analyze_fails (ClientError "denied"))
      Splitter.RecursiveCharacterTextSplitter (Some "scan.tiff") (Some "tiff").
Proof.
  apply (proj1 (type_selects_operation (detect_const two_lines) (analyze_const [])
                  Splitter.RecursiveCharacterTextSplitter (Some "scan.tiff") "tiff"
                  (detect_const []) (analyze_fails (ClientError "denied")))).
  reflexivity.
Defined.

Lemma textract_client_error_witness :
  process_document (detect_fails (ClientError "denied")) (analyze_const two_lines)
    Splitter.RecursiveCharacterTextSplitter (Some "scan.jpg") (Some "jpg")
  = ([], [StError ("Amazon Textract error: " +:+ "denied") None;
          StError "Failed to extract text from the document." None]).
Proof.
  apply (textract_client_error (detect_fails (ClientError "denied")) (analyze_const two_lines)
           Splitter.RecursiveCharacterTextSplitter "scan.jpg" "jpg" "denied").
  - discriminate.
  - left. split; reflexivity.
Defined.

Lemma line_without_text_witness :
  extract_text_from_image (detect_const broken_line) "scan.jpg"
  = (None, [StError "Error extracting text: " (Some (KeyError "Text"))]) /\
  extract_text_from_pdf (analyze_const broken_line) "scan.pdf"
  = (None, [StError "Error extracting text from PDF: " (Some (KeyError "Text"))]).
Proof.
  apply (line_without_text (detect_const broken_line) (analyze_const broken_line)
           "scan.jpg" "scan.pdf"
           [ {| BlockType := "LINE"; Text := Some "Patient: J. Doe" |} ]
           {| BlockType := "LINE"; Text := None |}
           [ {| BlockType := "LINE"; Text := Some "BP 120/80" |} ]).
  - reflexivity.
  - reflexivity.
  - apply List.Forall_cons; [intros _; eexists; reflexivity|apply List.Forall_nil].
  - reflexivity.
  - reflexivity.
Defined.

Lemma empty_text_iff_no_line_witness :
  fst (extract_text_from_image
         (detect_const [ {| BlockType := "PAGE"; Text := None |} ]) "blank.jpg")
  = Some "".
Proof.
  apply (proj2 (empty_text_iff_no_line
                  (detect_const [ {| BlockType := "PAGE"; Text := None |} ]) "blank.jpg"
                  [ {| BlockType := "PAGE"; Text := None |} ] eq_refl
                  ltac:(apply List.Forall_cons;
                        [intros H; discriminate H|apply List.Forall_nil]))).
  apply List.Forall_cons; [reflexivity|apply List.Forall_nil].
Defined.

Lemma chunks_of_lines_witness :
  process_document (detect_const two_lines) (analyze_const two_lines)
    Splitter.RecursiveCharacterTextSplitter (Some "scan.pdf") (Some "pdf")
  = match Splitter.RecursiveCharacterTextSplitter 4000 separators 0 (line_concat two_lines) with
    | inr texts => (texts, [SplitText (line_concat two_lines)])
    | inl e => ([], [SplitText (line_concat two_lines);
                     StError "Error splitting text into chunks: " (Some e)])
    end.
Proof.
  apply (chunks_of_lines (detect_const two_lines) (analyze_const two_lines)
           Splitter.RecursiveCharacterTextSplitter "scan.pdf" "pdf" two_lines).
  - discriminate.
  - right. split; reflexivity.
  - unfold lines_have_text, two_lines.
    repeat (apply List.Forall_cons;
            [cbn; intros H; try discriminate H; eexists; reflexivity|]).
    apply List.Forall_nil.
  - apply List.Exists_cons_tl, List.Exists_cons_hd. reflexivity.
Defined.

(** * Further properties of the intake *)

Lemma substring_all (p : string) : String.substring 0 (String.length p) p = p.
Proof. induction p as [|c p IH]; cbn; [reflexivity|]. rewrite IH. reflexivity. Qed.

Lemma slices_rejoin (p : string) : forall k, slice_to k p +:+ slice_from k p = p.
Proof.
  unfold slice_to, slice_from. induction p as [|c p IH]; intros k.
  - destruct k; reflexivity.
  - destruct k as [|k].
    + rewrite Nat.sub_0_r. change (String.substring 0 0 (String c p)) with "".
      change ("" +:+ ?x) with x. apply substring_all.
    + change (String.substring 0 (S k) (String c p)) with (String c (String.substring 0 k p)).
      change (String.substring (S k) (String.length (String c p) - S k) (String c p))
        with (String.substring k (String.length p - k) p).
      change (String c ?x +:+ ?y) with (String c (x +:+ y)). rewrite IH. reflexivity.
Qed.

Lemma splitext_scan_rejoin (p : string) (dotIndex : nat) :
  forall n filenameIndex,
    fst (splitext_scan p dotIndex filenameIndex n)
    +:+ snd (splitext_scan p dotIndex filenameIndex n) = p.
Proof.
  induction n as [|n IH]; intros filenameIndex; cbn [splitext_scan].
  - apply append_empty_r.
  - destruct (String.get filenameIndex p) as [c|]; [|apply slices_rejoin].
    destruct (Ascii.ascii_dec c ".") as [->|Hc]; [apply IH|].
    destruct c as [[] [] [] [] [] [] [] []]; try apply slices_rejoin. congruence.
Qed.

(** [os.path.splitext] loses nothing: root and extension put together
    are the path again. *)
Lemma splitext_rejoin (p : string) :
  fst (os_path_splitext p) +:+ snd (os_path_splitext p) = p.
Proof.
  unfold os_path_splitext.
  destruct (rfind "/" p <? rfind "." p)%Z; [apply splitext_scan_rejoin|apply append_empty_r].
Qed.


Lemma join_upload_folder (x : string) :
  os_path_join upload_folder x
  = if String.prefix "/" x then x else upload_folder +:+ "/" +:+ x.
Proof. unfold os_path_join. destruct (String.prefix "/" x); reflexivity. Qed.




Lemma renamed_not_folder (f : UploadedFile) (uuid4 : string) :
  renamed_path f uuid4 <> upload_folder.
Proof.
  unfold renamed_path. destruct (os_path_splitext (name f)). apply upload_path_not_folder.
Qed.

Lemma target_not_folder (f : UploadedFile) (uuid4 : string) (fs : gmap string node) :
  target_path f uuid4 fs <> upload_folder.
Proof.
  unfold target_path. destruct (os_path_exists fs (os_path_join upload_folder (name f))).
  - apply renamed_not_folder.
  - apply upload_path_not_folder.
Qed.

(** A successful upload holds the bytes at the path it returns. *)
Lemma upload_some f uuid4 fs path fs' log :
  upload_document (Some f) uuid4 fs = (Some path, fs', log) ->
  fs' !! path = Some (File (getbuffer f)) /\ log = [].
Proof.
  unfold upload_document, write_wb.
  set (fs1 := if os_path_exists fs upload_folder then fs else os_makedirs fs upload_folder).
  destruct (fs1 !! target_path f uuid4 fs1) as [[content|]|]; cbn;
    intros [= <- <- <-]; (split; [apply lookup_insert_eq|reflexivity]).
Qed.

(** X16: a successful upload can be read back: the path returned holds
    the bytes of the uploaded file, and no error box is shown. *)
Theorem upload_document_stores f uuid4 fs path fs' log :
  upload_document (Some f) uuid4 fs = (Some path, fs', log) ->
  fs' !! path = Some (File (getbuffer f)) /\ log = [].
Proof. exact (upload_some f uuid4 fs path fs' log). Qed.

(** X17: an upload changes at most two entries of the file system: the
    path it returns, and the upload folder, which it creates when it is
    missing; every other path, and an existing upload folder, is left as
    it was, also when the upload fails. *)
Theorem upload_document_touches f uuid4 fs q :
  fst (fst (upload_document (Some f) uuid4 fs)) <> Some q ->
  fs_after (Some f) uuid4 fs !! q = fs !! q \/
  (q = upload_folder /\ fs !! q = None /\ fs_after (Some f) uuid4 fs !! q = Some Dir).
Proof.
  unfold fs_after, upload_document, write_wb. intros Hq.
  pose proof (target_not_folder f uuid4
                (if os_path_exists fs upload_folder then fs
                 else os_makedirs fs upload_folder)) as Hfolder.
  assert (Hstep : forall fs1,
             fs1 = (if os_path_exists fs upload_folder then fs
                    else os_makedirs fs upload_folder) ->
             fs1 !! q = fs !! q \/
             (q = upload_folder /\ fs !! q = None /\ fs1 !! q = Some Dir /\
              fs1 = os_makedirs fs upload_folder)).
  { intros fs1 ->. destruct (os_path_exists fs upload_folder) eqn:Hex; [left; reflexivity|].
    apply exists_false in Hex. unfold os_makedirs.
    destruct (decide (q = upload_folder)) as [->|Hne].
    - right. rewrite lookup_insert_eq. repeat split; assumption.
    - left. apply lookup_insert_ne. congruence. }
  set (fs1 := if os_path_exists fs upload_folder then fs
              else os_makedirs fs upload_folder) in *.
  specialize (Hstep fs1 eq_refl).
  destruct (fs1 !! target_path f uuid4 fs1) as [[content|]|] eqn:Hat; cbn in *.
  - assert (Hne : target_path f uuid4 fs1 <> q) by congruence.
    rewrite lookup_insert_ne by exact Hne.
    destruct Hstep as [H|(-> & Hnone & Hdir & _)]; [left; exact H|right; auto].
  - destruct Hstep as [H|(-> & Hnone & Hdir & _)]; [left; exact H|right; auto].
  - assert (Hne : target_path f uuid4 fs1 <> q) by congruence.
    rewrite lookup_insert_ne by exact Hne.
    destruct Hstep as [H|(-> & Hnone & Hdir & _)]; [left; exact H|right; auto].
Qed.





Lemma upload_document_stores_witness :
  fs_after (Some report) drawn_uuid one_report !! "./uploaded_files/report_1b4e28ba.pdf"
  = Some (File (getbuffer report)) /\
  snd (upload_document (Some report) drawn_uuid one_report) = [].
Proof.
  apply (upload_document_stores report drawn_uuid one_report
           "./uploaded_files/report_1b4e28ba.pdf"
           (fs_after (Some report) drawn_uuid one_report) 
           (snd (upload_document (Some report) drawn_uuid one_report))).
  vm_compute. reflexivity.
Defined.

Lemma upload_document_touches_witness :
  fs_after (Some report) drawn_uuid one_report !! "./uploaded_files/report.pdf"
  = one_report !! "./uploaded_files/report.pdf" \/
  ("./uploaded_files/report.pdf" = upload_folder /\
   one_report !! "./uploaded_files/report.pdf" = None /\
   fs_after (Some report) drawn_uuid one_report !! "./uploaded_files/report.pdf" = Some Dir).
Proof.
  apply (upload_document_touches report drawn_uuid one_report "./uploaded_files/report.pdf").
  vm_compute. discriminate.
Defined.



Lemma prefix_append (a b : string) : String.prefix a (a +:+ b) = true.
Proof.
  induction a as [|c a IH]; [destruct b; reflexivity|].
  cbn [String.append String.prefix]. destruct (Ascii.ascii_dec c c); [exact IH|congruence].
Qed.

Lemma prefix_slash_head (c : ascii) (x y : string) :
  String.prefix "/" (String c x) = String.prefix "/" (String c y).
Proof.
  cbn [String.prefix]. destruct (Ascii.ascii_dec "/" c); [|reflexivity].
  destruct x, y; reflexivity.
Qed.

Lemma renamed_relative (f : UploadedFile) (uuid4 : string) :
  String.prefix "/" (name f) = false ->
  exists x, String.prefix "/" x = false /\ renamed_path f uuid4 = os_path_join upload_folder x.
Proof.
  intros Hname. unfold renamed_path. pose proof (splitext_rejoin (name f)) as Hsplit.
  destruct (os_path_splitext (name f)) as [file_name file_extension].
  cbn [fst snd] in Hsplit. eexists. split; [|reflexivity].
  destruct file_name as [|c file_name]; [reflexivity|].
  rewrite <- Hsplit in Hname. cbn [String.append] in *.
  etransitivity; [|exact Hname]. apply prefix_slash_head.
Qed.

(** X20: for a file name that does not start with a slash, the path a
    successful upload returns starts with "./uploaded_files/", renamed or
    not. *)
Theorem upload_path_in_folder f uuid4 fs path fs' log :
  String.prefix "/" (name f) = false ->
  upload_document (Some f) uuid4 fs = (Some path, fs', log) ->
  String.prefix (upload_folder +:+ "/") path = true.
Proof.
  intros Hname. unfold upload_document, write_wb.
  set (fs1 := if os_path_exists fs upload_folder then fs else os_makedirs fs upload_folder).
  assert (Hpath : String.prefix (upload_folder +:+ "/") (target_path f uuid4 fs1) = true).
  { unfold target_path.
    destruct (os_path_exists fs1 (os_path_join upload_folder (name f))).
    - destruct (renamed_relative f uuid4 Hname) as (x & Hx & ->).
      rewrite join_upload_folder, Hx, <- append_assoc. apply prefix_append.
    - rewrite join_upload_folder, Hname, <- append_assoc. apply prefix_append. }
  destruct (fs1 !! target_path f uuid4 fs1) as [[content|]|]; cbn;
    intros [= <- <- <-]; exact Hpath.
Qed.

Lemma upload_path_in_folder_witness :
  String.prefix (upload_folder +:+ "/") "./uploaded_files/report_1b4e28ba.pdf" = true.
Proof.
  apply (upload_path_in_folder report drawn_uuid one_report
           "./uploaded_files/report_1b4e28ba.pdf"
           (fs_after (Some report) drawn_uuid one_report) []).
  - reflexivity.
  - vm_compute. reflexivity.
Defined.

(** * Properties of the script *)


Lemma no_summary_in_log (log : list event) : existsb shows_summary (map Logged log) = false.
Proof. induction log as [|e log IH]; [reflexivity|exact IH]. Qed.

Lemma errors_in_log (log : list event) :
  existsb shows_error (map Logged log) = existsb is_error log.
Proof.
  induction log as [|e log IH]; [reflexivity|].
  cbn [map existsb]. rewrite IH. destruct e; reflexivity.
Qed.

Section ScriptFacts.

Context {World : Type}.
Variable str_lower : string -> string.
Variable json_dumps : pyval -> string.
Variable BEDROCK_MODEL : option string.
Variable invoke_model : string -> option string -> World -> result pyval * World.
Variable textract_detect : list Byte.byte -> result (list Block).
Variable textract_analyze : list Byte.byte -> list string -> result (list Block).
Variable RecursiveCharacterTextSplitter :
  nat -> list string -> nat -> string -> result (list string).

Local Abbreviation script :=
  (streamlit_ui str_lower json_dumps BEDROCK_MODEL invoke_model
     textract_detect textract_analyze RecursiveCharacterTextSplitter).
Local Abbreviation detect_in := (detect_at textract_detect).
Local Abbreviation analyze_in := (analyze_at textract_analyze).
Local Abbreviation split := (RecursiveCharacterTextSplitter 4000 separators 0).
Local Abbreviation title := (StTitle "Medical Document Summarization").

Lemma read_after_upload f uuid4 fs path fs' log :
  upload_document (Some f) uuid4 fs = (Some path, fs', log) ->
  open_rb fs' path = inr (getbuffer f).
Proof.
  intros Hup. destruct (upload_some _ _ _ _ _ _ Hup) as [Hat _].
  unfold open_rb. rewrite Hat. reflexivity.
Qed.

(** X21: what Textract is sent is what was uploaded: after a successful
    upload, opening the returned path and calling either operation is
    calling it on the bytes of the uploaded file. *)
Theorem textract_gets_uploaded_bytes f uuid4 fs path fs' log features :
  upload_document (Some f) uuid4 fs = (Some path, fs', log) ->
  detect_in fs' path = textract_detect (getbuffer f) /\
  analyze_in fs' path features = textract_analyze (getbuffer f) features.
Proof.
  intros Hup. unfold detect_at, analyze_at.
  rewrite (read_after_upload _ _ _ _ _ _ Hup). split; reflexivity.
Qed.

(** X22: when the upload fails, the script shows the error of the upload
    and "Failed to upload the document.", and nothing else happens: the
    OCR, the splitter and the model are not used and the model service
    stays in its state. *)
Theorem failed_upload_stops f uuid4 fs w :
  fst (fst (upload_document (Some f) uuid4 fs)) = None ->
  exists e,
    script (Some f) uuid4 fs w
    = ([title; Logged (StError "Error uploading file: " (Some e));
        Logged (StError "Failed to upload the document." None)],
       fs_after (Some f) uuid4 fs, w).
Proof.
  unfold streamlit_ui, fs_after, upload_document.
  set (fs1 := if os_path_exists fs upload_folder then fs else os_makedirs fs upload_folder).
  destruct (write_wb fs1 (target_path f uuid4 fs1) (getbuffer f)) as [e|fs2];
    cbn [fst snd]; [|discriminate].
  intros _. exists e. reflexivity.
Qed.

(** X23: a summary and an error box never appear in the same run: when
    the script displays "Generated Summary", no [st.error] was shown
    before it, by the script or by any function it called. *)
Theorem summary_excludes_error uploaded_file uuid4 fs w :
  existsb shows_summary (fst (fst (script uploaded_file uuid4 fs w))) = true ->
  existsb shows_error (fst (fst (script uploaded_file uuid4 fs w))) = false.
Proof.
  unfold streamlit_ui. destruct uploaded_file as [f|]; [|discriminate].
  destruct (upload_document (Some f) uuid4 fs) as [[file_path fs'] log1] eqn:Hup.
  destruct (truthy file_path) eqn:Hpath.
  - destruct file_path as [path|]; [|discriminate Hpath].
    destruct (upload_some _ _ _ _ _ _ Hup) as [_ ->].
    pose proof (process_document_outcome (detect_in fs') (analyze_in fs')
                  RecursiveCharacterTextSplitter (Some path)
                  (Some (str_lower (after_last_dot (name f))))) as Hprocess.
    destruct (process_document (detect_in fs') (analyze_in fs')
                RecursiveCharacterTextSplitter (Some path)
                (Some (str_lower (after_last_dot (name f))))) as [texts log2].
    destruct texts as [|chunk texts].
    + cbn [fst map app existsb shows_summary orb]. rewrite no_summary_in_log. discriminate.
    + destruct Hprocess as [(text & _ & -> & _)|[[=] _]].
      pose proof (generate_summary_outcome json_dumps BEDROCK_MODEL invoke_model
                    (chunk :: texts) w) as Hsummary.
      destruct (generate_summary json_dumps BEDROCK_MODEL invoke_model (chunk :: texts) w)
        as [[summary w'] log3].
      destruct summary as [summary|].
      * subst log3. unfold show_summary, truthy.
        destruct (String.eqb summary ""); [discriminate|]. reflexivity.
      * destruct Hsummary as (text' & cause & ->). discriminate.
  - cbn [fst]. change (title :: map Logged log1 ++ ?x) with ([title] ++ map Logged log1 ++ x).
    rewrite !existsb_app, no_summary_in_log. discriminate.
Qed.




End ScriptFacts.

Lemma textract_gets_uploaded_bytes_witness :
  detect_at (detect_bytes_const two_lines) (fs_after (Some report) drawn_uuid ∅)
    "./uploaded_files/report.pdf"
  = detect_bytes_const two_lines (getbuffer report) /\
  analyze_at (analyze_bytes_const two_lines) (fs_after (Some report) drawn_uuid ∅)
    "./uploaded_files/report.pdf" ["TABLES"; "FORMS"]
  = analyze_bytes_const two_lines (getbuffer report) ["TABLES"; "FORMS"].
Proof.
  apply (textract_gets_uploaded_bytes (detect_bytes_const two_lines)
           (analyze_bytes_const two_lines) report drawn_uuid ∅
           "./uploaded_files/report.pdf" (fs_after (Some report) drawn_uuid ∅) []
           ["TABLES"; "FORMS"]).
  vm_compute. reflexivity.
Defined.

Lemma failed_upload_stops_witness :
  exists e,
    streamlit_ui lower_letters keys_dumps (Some "model") scripted_model
      (detect_bytes_const two_lines) (analyze_bytes_const two_lines)
      Splitter.RecursiveCharacterTextSplitter (Some report) drawn_uuid blocked_fs
      [inr (reply "S1")]
    = ([StTitle "Medical Document Summarization";
        Logged (StError "Error uploading file: " (Some e));
        Logged (StError "Failed to upload the document." None)],
       fs_after (Some report) drawn_uuid blocked_fs, [inr (reply "S1")]).
Proof.
  apply (failed_upload_stops lower_letters keys_dumps (Some "model") scripted_model
           (detect_bytes_const two_lines) (analyze_bytes_const two_lines)
           Splitter.RecursiveCharacterTextSplitter report drawn_uuid blocked_fs
           [inr (reply "S1")]).
  vm_compute. reflexivity.
Defined.

Lemma summary_excludes_error_witness :
  existsb shows_error
    (fst (fst (streamlit_ui lower_letters keys_dumps (Some "model") scripted_model
                 (detect_bytes_const two_lines) (analyze_bytes_const two_lines)
                 Splitter.RecursiveCharacterTextSplitter (Some report) drawn_uuid ∅
                 [inr (reply "S1")])))
  = false.
Proof.
  apply (summary_excludes_error lower_letters keys_dumps (Some "model") scripted_model
           (detect_bytes_const two_lines) (analyze_bytes_const two_lines)
           Splitter.RecursiveCharacterTextSplitter (Some report) drawn_uuid ∅
           [inr (reply "S1")]).
  vm_compute. reflexivity.
Defined.



